(** * qshell: resumable bucket download (qdownload.go)

    A shallow embedding of [QiniuDownload] and [downloadFile] of
    [src/qshell/qdownload.go], together with the Go library functions they
    call, and the properties of the job controller and of the transfer
    protocol stated over it.

    Conventions.
    - Go strings and byte slices are [string] (sequences of 8-bit characters).
    - [int64] values are [Z]; the counters are incremented with [add64], which
      wraps around.
    - Paths are Unix paths. The file system is a finite map from the path of
      a regular file to its content; the resume store is a finite map from
      key to value. Failures that come from outside the program (permissions,
      disk, network) are read from an environment record.
    - The listing file is the list of its lines, as the scanner yields them.
    - Every side effect of the controller and of a transfer is also appended
      to a trace of events, so that statements about what the code does or
      does not do (read the store, send a header, open in append mode) are
      statements about that trace. *)

From Stdlib Require Import ZArith Lia Ascii String List Bool.
From Stdlib Require Import Decimal DecimalString DecimalPos DecimalZ.
From stdpp Require Import base option list gmap strings fin_maps.

Local Open Scope string_scope.
Local Open Scope list_scope.
Local Open Scope Z_scope.

(** ** Go library functions used by the source *)

(** [package strings], restricted to what the source calls: single-character
    separators for [Split] and ASCII white space for [TrimSpace] (Go also trims
    the multi-byte Unicode spaces). *)
Module strings.

Definition isSpace (c : ascii) : bool :=
  let n := nat_of_ascii c in
  ((9 <=? n)%nat && (n <=? 13)%nat) || (n =? 32)%nat.

Fixpoint TrimLeft (s : string) : string :=
  match s with
  | String c s' => if isSpace c then TrimLeft s' else s
  | EmptyString => EmptyString
  end.

(** Trailing white space: a suffix made of spaces only is dropped. *)
Fixpoint TrimRight (s : string) : string :=
  match s with
  | EmptyString => EmptyString
  | String c s' =>
      match TrimRight s' with
      | EmptyString => if isSpace c then EmptyString else String c EmptyString
      | r => String c r
      end
  end.

Definition TrimSpace (s : string) : string := TrimRight (TrimLeft s).

(** [Split s sep] for a one-character [sep]: always at least one field. *)
Fixpoint Split (s : string) (sep : ascii) : list string :=
  match s with
  | EmptyString => [EmptyString]
  | String c s' =>
      if Ascii.eqb c sep then EmptyString :: Split s' sep
      else match Split s' sep with
           | f :: fs => String c f :: fs
           | [] => [String c EmptyString]
           end
  end.

Fixpoint HasPrefix (s p : string) : bool :=
  match p, s with
  | EmptyString, _ => true
  | String a p', String b s' => Ascii.eqb a b && HasPrefix s' p'
  | String _ _, EmptyString => false
  end.

Fixpoint HasSuffix_fuel (n : nat) (s suffix : string) : bool :=
  if String.eqb s suffix then true
  else match n, s with
       | S n', String _ s' => HasSuffix_fuel n' s' suffix
       | _, _ => false
       end.

Definition HasSuffix (s suffix : string) : bool :=
  HasSuffix_fuel (String.length s) s suffix.

(** [strings.Index(s, sub) >= 0]. *)
Fixpoint Contains (s sub : string) : bool :=
  HasPrefix s sub ||
  match s with
  | String _ s' => Contains s' sub
  | EmptyString => false
  end.

Fixpoint Join (l : list string) (sep : string) : string :=
  match l with
  | [] => ""
  | [x] => x
  | x :: r => x ++ sep ++ Join r sep
  end.

(** [Replace(s, old, new, -1)] for a non-empty [old]: every occurrence, from
    the left, without overlap. [skip] counts the characters of an occurrence
    still to be passed over. *)
Fixpoint Replace_from (skip : nat) (s old new : string) : string :=
  match s with
  | EmptyString => EmptyString
  | String c s' =>
      match skip with
      | S k => Replace_from k s' old new
      | O =>
          if HasPrefix s old
          then new ++ Replace_from (String.length old - 1) s' old new
          else String c (Replace_from O s' old new)
      end
  end.

Definition Replace (s old new : string) : string := Replace_from 0 s old new.

End strings.

(** [package strconv]: [ParseInt(s, 10, 64)] and the ["%d"] verb. *)
Module strconv.

Inductive NumError := ErrSyntax | ErrRange.

Definition maxUint64 : Z := 2 ^ 64 - 1.
Definition maxInt64 : Z := 2 ^ 63 - 1.
Definition minInt64 : Z := - 2 ^ 63.

Definition digit (c : ascii) : option Z :=
  let n := Z.of_nat (nat_of_ascii c) in
  if (48 <=? n) && (n <=? 57) then Some (n - 48) else None.

(** The digit loop of [ParseUint] for base 10 and 64 bits: it stops at the
    first character that is not a digit and at the first overflow. *)
Fixpoint ParseUint_loop (s : string) (n : Z) : Z * option NumError :=
  match s with
  | EmptyString => (n, None)
  | String c s' =>
      match digit c with
      | None => (0, Some ErrSyntax)
      | Some d =>
          if n >=? maxUint64 / 10 + 1 then (maxUint64, Some ErrRange)
          else
            let n1 := n * 10 + d in
            if n1 >? maxUint64 then (maxUint64, Some ErrRange)
            else ParseUint_loop s' n1
      end
  end.

Definition ParseUint (s : string) : Z * option NumError :=
  match s with
  | EmptyString => (0, Some ErrSyntax)
  | _ => ParseUint_loop s 0
  end.

Definition ParseInt (s : string) : Z * option NumError :=
  match s with
  | EmptyString => (0, Some ErrSyntax)
  | String c0 r =>
      let '(neg, s1) :=
        if Ascii.eqb c0 "+" then (false, r)
        else if Ascii.eqb c0 "-" then (true, r)
        else (false, s) in
      match ParseUint s1 with
      | (_, Some ErrSyntax) => (0, Some ErrSyntax)
      | (un, _) =>
          let cutoff := 2 ^ 63 in
          if negb neg && (un >=? cutoff) then (cutoff - 1, Some ErrRange)
          else if neg && (un >? cutoff) then (- cutoff, Some ErrRange)
          else (if neg then - un else un, None)
      end
  end.

(** [fmt.Sprintf("%d", z)]: a minus sign for negative numbers, no leading
    zeros, ["0"] for zero. *)
Definition FormatInt (z : Z) : string :=
  NilZero.string_of_int (Z.to_int z).

End strconv.

(** [package path/filepath] on a Unix system (separator ["/"]). *)
Module filepath.

Definition sep : ascii := "/"%char.

Definition IsAbs (p : string) : bool := strings.HasPrefix p "/".

(** The lexical processing of [Clean]: the stack holds the elements kept so
    far, innermost first. *)
Fixpoint clean_elems (rooted : bool) (elems stack : list string) : list string :=
  match elems with
  | [] => rev stack
  | e :: rest =>
      if String.eqb e "" || String.eqb e "." then clean_elems rooted rest stack
      else if String.eqb e ".." then
        match stack with
        | top :: below =>
            if String.eqb top ".." then clean_elems rooted rest (e :: stack)
            else clean_elems rooted rest below
        | [] =>
            if rooted then clean_elems rooted rest stack
            else clean_elems rooted rest (e :: stack)
        end
      else clean_elems rooted rest (e :: stack)
  end.

Definition Clean (p : string) : string :=
  let rooted := IsAbs p in
  let body := strings.Join (clean_elems rooted (strings.Split p sep) []) "/" in
  if rooted then "/" ++ body
  else if String.eqb body "" then "." else body.

(** [Join(a, b)]: empty leading elements are ignored, the rest is cleaned. *)
Definition Join (a b : string) : string :=
  if negb (String.eqb a "") then Clean (a ++ "/" ++ b)
  else if negb (String.eqb b "") then Clean b
  else "".

(** [Abs]: [getwd] is the result of [os.Getwd], [None] when it fails (the
    source drops the error and keeps the empty string). *)
Definition Abs (getwd : option string) (p : string) : string :=
  if IsAbs p then Clean p
  else match getwd with
       | Some wd => Join wd p
       | None => ""
       end.

(** [Dir]: the path up to its last separator, cleaned. *)
Definition Dir (p : string) : string :=
  Clean
    (match removelast (strings.Split p sep) with
     | [] => ""
     | l => strings.Join l "/" ++ "/"
     end).

End filepath.

(** ** Data model *)

(** [int64] addition. *)
Definition wrap64 (z : Z) : Z := (z + 2 ^ 63) mod 2 ^ 64 - 2 ^ 63.
Definition add64 (a b : Z) : Z := wrap64 (a + b).

(** [len(s)] and [FileInfo.Size()]. *)
Definition len (s : string) : Z := Z.of_nat (String.length s).

(** The fields of [DownloadConfig] the job reads (the log settings only
    configure the logger). *)
Record DownloadConfig := {
  DestDir : string;
  Bucket : string;
  Prefix : string;
  Suffixes : string;
  CdnDomain : string;
  DownProxy : string
}.


(** The values captured by the closure sent on [downloadTasks]. *)
Record Task := {
  t_fileKey : string;
  t_fileUrl : string;
  t_fileSize : Z;
  t_fromBytes : Z;
  t_downNewLog : bool
}.

Record Request := {
  Method : string;
  URL : string;
  Host : string;
  Header : list (string * string)
}.

(** What [client.Do] and the following [io.Copy] obtain from the network:
    the status code, the bytes [io.Copy] wrote to the file, and whether it
    stopped on an error. *)
Record Response := {
  StatusCode : Z;
  Body : string;
  CopyErr : bool
}.

Inductive Error :=
| MkdirErr | ProxyParseErr | NewRequestErr | RespErr
| OpenErr | CopyError | RenameErr | DownloadFailed.

Inductive LogMsg :=
| LogSkipSuffix (fileKey : string)
| LogInvalidLine (line : string)
| LogExistsSame (path : string)
| LogExistsChanged (path : string)
| LogExistsSizeDiffers (path : string)
| LogExistsSameSize (path fileKey : string)
| LogRenameError (src dst : string)
| LogTmpChanged (tmp : string)
| LogTmpNoRecord (tmp : string)
| LogTransfer (fileName : string) (err : option Error).

Inductive Event :=
| EvStat (path : string)
| EvDbGet (key : string)
| EvDbPut (key val : string)
| EvRename (src dst : string)
| EvSign (fileKey : string)
| EvProgress (fileKey : string) (current total : Z)
| EvSend (t : Task)
| EvLog (m : LogMsg)
| EvMkdirAll (dir : string)
| EvDo (proxy : option string) (req : Request)
| EvOpenAppend (path : string)
| EvCreate (path : string)
| EvCopy (path : string) (written : Z) (ok : bool).

(** What the program cannot decide by itself. *)
Record Env := {
  getwd : option string;
  MkdirAll_ok : string -> bool;
  url_Parse_ok : string -> bool;
  NewRequest_ok : string -> bool;
  client_Do : option string -> Request -> option Response;
  open_ok : string -> bool;
  Rename_ok : string -> string -> bool;
  (** [time.Now().Unix()] when the link for a key is made. *)
  Now_Unix : string -> Z;
  (** [PrivateUrl(mac, publicUrl, deadline)], which is not part of the file. *)
  PrivateUrl : string -> Z -> string
}.

Record Counters := {
  totalFileCount : Z;
  currentFileCount : Z;
  existsFileCount : Z;
  updateFileCount : Z;
  successFileCount : Z;
  failureFileCount : Z;
  skipBySuffixes : Z
}.

(** The state shared by the controller and the workers: local files (regular
    files only, by path), the resume store, the counters, the tasks sent on
    the channel (oldest first) and the trace of effects (oldest first). *)
Record State := {
  fs : gmap string string;
  db : gmap string string;
  cnt : Counters;
  sent : list Task;
  trace : list Event
}.

Definition set_fs (f : gmap string string) (st : State) : State :=
  {| fs := f; db := db st; cnt := cnt st; sent := sent st; trace := trace st |}.
Definition set_db (d : gmap string string) (st : State) : State :=
  {| fs := fs st; db := d; cnt := cnt st; sent := sent st; trace := trace st |}.
Definition set_cnt (c : Counters) (st : State) : State :=
  {| fs := fs st; db := db st; cnt := c; sent := sent st; trace := trace st |}.
Definition emit (e : Event) (st : State) : State :=
  {| fs := fs st; db := db st; cnt := cnt st; sent := sent st;
     trace := trace st ++ [e] |}.
Definition send (t : Task) (st : State) : State :=
  {| fs := fs st; db := db st; cnt := cnt st; sent := sent st ++ [t];
     trace := trace st ++ [EvSend t] |}.

Definition set_total (n : Z) (c : Counters) : Counters :=
  {| totalFileCount := n; currentFileCount := currentFileCount c;
     existsFileCount := existsFileCount c; updateFileCount := updateFileCount c;
     successFileCount := successFileCount c;
     failureFileCount := failureFileCount c; skipBySuffixes := skipBySuffixes c |}.
Definition inc_current (c : Counters) : Counters :=
  {| totalFileCount := totalFileCount c;
     currentFileCount := add64 (currentFileCount c) 1;
     existsFileCount := existsFileCount c; updateFileCount := updateFileCount c;
     successFileCount := successFileCount c;
     failureFileCount := failureFileCount c; skipBySuffixes := skipBySuffixes c |}.
Definition inc_exists (c : Counters) : Counters :=
  {| totalFileCount := totalFileCount c; currentFileCount := currentFileCount c;
     existsFileCount := add64 (existsFileCount c) 1;
     updateFileCount := updateFileCount c;
     successFileCount := successFileCount c;
     failureFileCount := failureFileCount c; skipBySuffixes := skipBySuffixes c |}.
Definition inc_update (c : Counters) : Counters :=
  {| totalFileCount := totalFileCount c; currentFileCount := currentFileCount c;
     existsFileCount := existsFileCount c;
     updateFileCount := add64 (updateFileCount c) 1;
     successFileCount := successFileCount c;
     failureFileCount := failureFileCount c; skipBySuffixes := skipBySuffixes c |}.
Definition inc_success (c : Counters) : Counters :=
  {| totalFileCount := totalFileCount c; currentFileCount := currentFileCount c;
     existsFileCount := existsFileCount c; updateFileCount := updateFileCount c;
     successFileCount := add64 (successFileCount c) 1;
     failureFileCount := failureFileCount c; skipBySuffixes := skipBySuffixes c |}.
Definition inc_failure (c : Counters) : Counters :=
  {| totalFileCount := totalFileCount c; currentFileCount := currentFileCount c;
     existsFileCount := existsFileCount c; updateFileCount := updateFileCount c;
     successFileCount := successFileCount c;
     failureFileCount := add64 (failureFileCount c) 1;
     skipBySuffixes := skipBySuffixes c |}.
Definition inc_skip (c : Counters) : Counters :=
  {| totalFileCount := totalFileCount c; currentFileCount := currentFileCount c;
     existsFileCount := existsFileCount c; updateFileCount := updateFileCount c;
     successFileCount := successFileCount c;
     failureFileCount := failureFileCount c;
     skipBySuffixes := add64 (skipBySuffixes c) 1 |}.

Definition count (f : Counters -> Counters) (st : State) : State :=
  set_cnt (f (cnt st)) st.
Definition log (m : LogMsg) (st : State) : State := emit (EvLog m) st.

(** [os.Rename]: it fails when the source is missing or when the environment
    refuses; a failed rename changes nothing. *)
Definition os_Rename (E : Env) (src dst : string) (f : gmap string string)
  : option (gmap string string) :=
  match f !! src with
  | Some c => if Rename_ok E src dst then Some (<[dst := c]> (delete src f)) else None
  | None => None
  end.

(** ** The transfer protocol: [downloadFile] *)

Definition rangeHeader (fromBytes : Z) : string * string :=
  ("Range", ("bytes=" ++ strconv.FormatInt fromBytes ++ "-")%string).

(** The request [downloadFile] builds, once the URL is accepted. *)
Definition mkRequest (remoteUrl domainsOfBucket : string) (fromBytes : Z) : Request :=
  {| Method := "GET"; URL := remoteUrl; Host := domainsOfBucket;
     Header := if fromBytes =? 0 then [] else [rangeHeader fromBytes] |}.

(** The proxy address with the default scheme put in front when it holds
    no ["http"]. *)
Definition downloadProxy (downProxy : string) : string :=
  if negb (strings.Contains downProxy "http")
  then ("http://" ++ downProxy)%string else downProxy.

(** The HTTP client: through the proxy when one is configured. *)
Definition clientOf (downProxy : string) : option string :=
  if negb (String.eqb downProxy "") then Some (downloadProxy downProxy) else None.

Definition remoteUrl (downProxy fileUrl : string) : string :=
  if negb (String.eqb downProxy "") && negb (strings.Contains fileUrl "http://")
  then ("http://" ++ fileUrl)%string else fileUrl.

(** Opening the temporary file: [os.OpenFile] with [O_APPEND|O_WRONLY] (the
    file must exist) when [fromBytes] is not zero, [os.Create] (the file is
    created or truncated) otherwise. The result is the file system after the
    open and the content the copy appends to. *)
Definition openTmp (E : Env) (localFilePathTmp : string) (fromBytes : Z)
    (f : gmap string string) : option (gmap string string * string) :=
  if negb (fromBytes =? 0) then
    match f !! localFilePathTmp with
    | Some old => if open_ok E localFilePathTmp then Some (f, old) else None
    | None => None
    end
  else
    if open_ok E localFilePathTmp
    then Some (<[localFilePathTmp := ""]> f, "") else None.

Definition openEvent (localFilePathTmp : string) (fromBytes : Z) : Event :=
  if negb (fromBytes =? 0) then EvOpenAppend localFilePathTmp
  else EvCreate localFilePathTmp.

(** The result is the new file system, the returned [err] and the effects
    in the order they happen. *)
Definition downloadFile (E : Env)
    (destDir fileName fileUrl domainsOfBucket downProxy : string)
    (fileSize fromBytes : Z) (f : gmap string string)
  : gmap string string * option Error * list Event :=
  let localFilePath := filepath.Join destDir fileName in
  let localFileDir := filepath.Dir localFilePath in
  let localFilePathTmp := (localFilePath ++ ".tmp")%string in
  if negb (MkdirAll_ok E localFileDir) then
    (f, Some MkdirErr, [EvMkdirAll localFileDir])
  else
    let tr0 := [EvMkdirAll localFileDir] in
    if negb (String.eqb downProxy "")
       && negb (url_Parse_ok E (downloadProxy downProxy)) then
      (f, Some ProxyParseErr, tr0)
    else
      let client := clientOf downProxy in
      let url := remoteUrl downProxy fileUrl in
      if negb (NewRequest_ok E url) then (f, Some NewRequestErr, tr0)
      else
        let req := mkRequest url domainsOfBucket fromBytes in
        let tr1 := tr0 ++ [EvDo client req] in
        match client_Do E client req with
        | None => (f, Some RespErr, tr1)
        | Some resp =>
            if Z.quot (StatusCode resp) 100 =? 2 then
              let tr2 := tr1 ++ [openEvent localFilePathTmp fromBytes] in
              match openTmp E localFilePathTmp fromBytes f with
              | None => (f, Some OpenErr, tr2)
              | Some (f1, old) =>
                  let content := (old ++ Body resp)%string in
                  let f2 := <[localFilePathTmp := content]> f1 in
                  let tr3 :=
                    tr2 ++ [EvCopy localFilePathTmp (len (Body resp))
                              (negb (CopyErr resp))] in
                  if CopyErr resp then (f2, Some CopyError, tr3)
                  else
                    let tr4 := tr3 ++ [EvRename localFilePathTmp localFilePath] in
                    match os_Rename E localFilePathTmp localFilePath f2 with
                    | None => (f2, Some RenameErr, tr4)
                    | Some f3 => (f3, None, tr4)
                    end
              end
            else (f, Some DownloadFailed, tr1)
        end.

(** Lines 354-358: the host the closure passes, and its call of
    [downloadFile] on the local files [f]. *)
Definition hostOf (downConfig : DownloadConfig) (domainOfBucket : string) : string :=
  if String.eqb (CdnDomain downConfig) "" then domainOfBucket
  else CdnDomain downConfig.

Definition transfer (E : Env) (downConfig : DownloadConfig)
    (domainOfBucket : string) (t : Task) (f : gmap string string)
  : gmap string string * option Error * list Event :=
  downloadFile E (DestDir downConfig) (t_fileKey t) (t_fileUrl t)
    (hostOf downConfig domainOfBucket) (DownProxy downConfig)
    (t_fileSize t) (t_fromBytes t) f.

(** The body of the closure sent on [downloadTasks]: the transfer, then the
    counters. *)
Definition run_task (E : Env) (downConfig : DownloadConfig)
    (domainOfBucket : string) (t : Task) (st : State) : State :=
  let '(f', downErr, tr) := transfer E downConfig domainOfBucket t (fs st) in
  let st1 :=
    {| fs := f'; db := db st; cnt := cnt st; sent := sent st;
       trace := trace st ++ tr ++ [EvLog (LogTransfer (t_fileKey t) downErr)] |} in
  match downErr with
  | Some _ => count inc_failure st1
  | None =>
      let st2 := count inc_success st1 in
      if negb (t_downNewLog t) then count inc_update st2 else st2
  end.

(** ** The job controller: the listing loop of [QiniuDownload] *)

(** [filterSuffixes]: the entries of [Suffixes] that are not blank, kept as
    they are written (not trimmed). *)
Definition filterSuffixes (downConfig : DownloadConfig) : list string :=
  List.filter (fun suffix => negb (String.eqb (strings.TrimSpace suffix) ""))
    (strings.Split (Suffixes downConfig) ","%char).

(** The suffix loop: [goAhead] is set by the first suffix the key ends in. *)
Definition goAhead (suffixes : list string) (fileKey : string) : bool :=
  existsb (fun suffix => strings.HasSuffix fileKey suffix) suffixes.

(** [oldFileLmd]: the first ["|"]-separated field of a stored value, parsed
    with the error dropped. *)
Definition oldFileLmd (oldFileInfo : string) : Z :=
  fst (strconv.ParseInt (List.nth 0 (strings.Split oldFileInfo "|"%char) "")).

(** [fmt.Sprintf("%d|%d", fileMtime, fileSize)]. *)
Definition rVal (fileMtime fileSize : Z) : string :=
  strconv.FormatInt fileMtime ++ "|" ++ strconv.FormatInt fileSize.

(** How the branching on local files ends: [continue], or fall through to
    the dispatch with the two flags. *)
Inductive Decision :=
| Continue
| Download (downNewLog : bool) (fromBytes : Z).

(** Lines 270-341: the decision taken from the final file, the temporary
    file and the resume store. *)
Definition classify (E : Env)
    (localFilePath localAbsFilePath localFilePathTmp fileKey : string)
    (fileSize fileMtime : Z) (st : State) : Decision * State :=
  let st := emit (EvStat localFilePath) st in
  match fs st !! localFilePath with
  | Some localFile =>
      let st := emit (EvDbGet localFilePath) st in
      match db st !! localFilePath with
      | Some oldFileInfo =>
          if (oldFileLmd oldFileInfo =? fileMtime) && (len localFile =? fileSize)
          then (Continue, count inc_exists (log (LogExistsSame localAbsFilePath) st))
          else (Download true 0, log (LogExistsChanged localAbsFilePath) st)
      | None =>
          if negb (len localFile =? fileSize)
          then (Download true 0, log (LogExistsSizeDiffers localAbsFilePath) st)
          else (Continue,
                count inc_exists (log (LogExistsSameSize localAbsFilePath fileKey) st))
      end
  | None =>
      let st := emit (EvStat localFilePathTmp) st in
      match fs st !! localFilePathTmp with
      | Some localTmpFile =>
          let st := emit (EvDbGet localFilePath) st in
          match db st !! localFilePath with
          | Some oldFileInfo =>
              if oldFileLmd oldFileInfo =? fileMtime then
                if len localTmpFile <? fileSize
                then (Download false (len localTmpFile), st)
                else
                  let st := emit (EvRename localFilePathTmp localFilePath) st in
                  match os_Rename E localFilePathTmp localFilePath (fs st) with
                  | Some f' => (Continue, set_fs f' st)
                  | None =>
                      (Continue,
                       log (LogRenameError localFilePathTmp localFilePath) st)
                  end
              else (Download true 0, log (LogTmpChanged localFilePathTmp) st)
          | None => (Download true 0, log (LogTmpNoRecord localFilePathTmp) st)
          end
      | None => (Download true 0, st)
      end
  end.

(** Lines 343-368: the resume entry is written, then the task is sent. *)
Definition dispatch (rKey fileKey fileUrl : string) (fileSize fileMtime : Z)
    (downNewLog : bool) (fromBytes : Z) (st : State) : State :=
  let st :=
    emit (EvDbPut rKey (rVal fileMtime fileSize))
      (set_db (<[rKey := rVal fileMtime fileSize]> (db st)) st) in
  send {| t_fileKey := fileKey; t_fileUrl := fileUrl; t_fileSize := fileSize;
          t_fromBytes := fromBytes; t_downNewLog := downNewLog |} st.

(** Lines 267-269: the paths of a record. *)
Definition localFilePath (downConfig : DownloadConfig) (fileKey : string) : string :=
  filepath.Join (DestDir downConfig) fileKey.
Definition localAbsFilePath (E : Env) (downConfig : DownloadConfig)
    (fileKey : string) : string :=
  filepath.Abs (getwd E) (localFilePath downConfig fileKey).
Definition localFilePathTmp (downConfig : DownloadConfig) (fileKey : string) : string :=
  (localFilePath downConfig fileKey ++ ".tmp")%string.

(** [makePrivateDownloadLink]: the public URL is signed for thirty days and
    its scheme and host are replaced by the address to fetch from. *)
Definition makePrivateDownloadLink (E : Env)
    (domainOfBucket ioProxyAddress fileKey : string) : string :=
  let publicUrl := ("http://" ++ domainOfBucket ++ "/" ++ fileKey)%string in
  let deadline := Now_Unix E fileKey + 3600 * 24 * 30 in
  let privateUrl := PrivateUrl E publicUrl deadline in
  strings.Replace privateUrl ("http://" ++ domainOfBucket)%string ioProxyAddress.

(** Lines 252-257: the signed URL, on the default host or on the CDN
    domain. *)
Definition fileUrlOf (E : Env) (downConfig : DownloadConfig)
    (domainOfBucket ioProxyAddress fileKey : string) : string :=
  if String.eqb (CdnDomain downConfig) ""
  then makePrivateDownloadLink E domainOfBucket ioProxyAddress fileKey
  else makePrivateDownloadLink E domainOfBucket (CdnDomain downConfig) fileKey.

(** Lines 252-265: the URL is signed and the progress line printed. *)
Definition announce (fileKey : string) (st : State) : State :=
  emit (EvProgress fileKey (currentFileCount (cnt st)) (totalFileCount (cnt st)))
    (emit (EvSign fileKey) st).

(** Lines 252-368: what the loop does with a record that passed the suffix
    filter and whose size and time were parsed. *)
Definition process_object (E : Env) (downConfig : DownloadConfig)
    (domainOfBucket ioProxyAddress : string)
    (fileKey : string) (fileSize fileMtime : Z) (st : State) : State :=
  let fileUrl := fileUrlOf E downConfig domainOfBucket ioProxyAddress fileKey in
  let st := announce fileKey st in
  match classify E (localFilePath downConfig fileKey)
          (localAbsFilePath E downConfig fileKey)
          (localFilePathTmp downConfig fileKey)
          fileKey fileSize fileMtime st with
  | (Continue, st) => st
  | (Download downNewLog fromBytes, st) =>
      dispatch (localAbsFilePath E downConfig fileKey) fileKey fileUrl
        fileSize fileMtime downNewLog fromBytes st
  end.

(** The task sent for a record. *)
Definition taskOf (E : Env) (downConfig : DownloadConfig)
    (domainOfBucket ioProxyAddress fileKey : string) (fileSize : Z)
    (downNewLog : bool) (fromBytes : Z) : Task :=
  {| t_fileKey := fileKey;
     t_fileUrl := fileUrlOf E downConfig domainOfBucket ioProxyAddress fileKey;
     t_fileSize := fileSize; t_fromBytes := fromBytes;
     t_downNewLog := downNewLog |}.

(** The suffix test of lines 223-238: [true] when the record is skipped. *)
Definition filtered (downConfig : DownloadConfig) (fileKey : string) : bool :=
  (0 <? length (filterSuffixes downConfig))%nat
  && negb (goAhead (filterSuffixes downConfig) fileKey).

(** One iteration of the scan loop, for the text of one line. *)
Definition process_line (E : Env) (downConfig : DownloadConfig)
    (domainOfBucket ioProxyAddress : string) (text : string) (st : State) : State :=
  let st := count inc_current st in
  let line := strings.TrimSpace text in
  let items := strings.Split line "009"%char in
  if (4 <=? length items)%nat then
    let fileKey := List.nth 0 items "" in
    if filtered downConfig fileKey then
      log (LogSkipSuffix fileKey) (count inc_skip st)
    else
      match strconv.ParseInt (List.nth 1 items "") with
      | (_, Some _) => log (LogInvalidLine line) st
      | (fileSize, None) =>
          match strconv.ParseInt (List.nth 3 items "") with
          | (_, Some _) => log (LogInvalidLine line) st
          | (fileMtime, None) =>
              process_object E downConfig domainOfBucket ioProxyAddress
                fileKey fileSize fileMtime st
          end
      end
  else st.

(** The fields of a listing line as the loop reads them. *)
Definition items (text : string) : list string :=
  strings.Split (strings.TrimSpace text) "009"%char.

(** The record a line stands for: key, size and modification time, when the
    line has at least four fields and both numbers parse. *)
Definition objectOf (text : string) : option (string * Z * Z) :=
  if (4 <=? length (items text))%nat then
    match strconv.ParseInt (List.nth 1 (items text) ""),
          strconv.ParseInt (List.nth 3 (items text) "") with
    | (fileSize, None), (fileMtime, None) =>
        Some (List.nth 0 (items text) "", fileSize, fileMtime)
    | _, _ => None
    end
  else None.


(** Modelled from the spec: [GetFileLineCount] is not among the sources. It
    yields the report's total; the progress line prints [currentFileCount],
    which the loop increments for every scanned line, out of it, so it is
    taken as the number of lines of the listing file. *)
Definition GetFileLineCount (lines : list string) : Z :=
  Z.of_nat (length lines).

Definition zeroCounters : Counters :=
  {| totalFileCount := 0; currentFileCount := 0; existsFileCount := 0;
     updateFileCount := 0; successFileCount := 0; failureFileCount := 0;
     skipBySuffixes := 0 |}.

(** The controller from "init counters" to the end of the scan loop, on the
    lines the scanner yields. Between two iterations the state changes only
    by what the iterations do; what the workers do is [run_task], and the
    loop with the workers at work is [loop_among_workers] below. *)
Definition controller (E : Env) (downConfig : DownloadConfig)
    (domainOfBucket ioProxyAddress : string) (lines : list string)
    (st : State) : State :=
  fold_left
    (fun st text => process_line E downConfig domainOfBucket ioProxyAddress text st)
    lines
    (set_cnt (set_total (GetFileLineCount lines) zeroCounters) st).

(** The state a process starts the job in: local files [f], store [d]. *)
Definition initState (f d : gmap string string) : State :=
  {| fs := f; db := d; cnt := zeroCounters; sent := []; trace := [] |}.

(** A line the loop classifies: a record that passes the suffix test. *)
Definition classified (downConfig : DownloadConfig) (text : string) : bool :=
  match objectOf text with
  | Some (fileKey, _, _) => negb (filtered downConfig fileKey)
  | None => false
  end.

(** Events that change nothing outside the controller: reads, signing,
    progress and log lines. *)
Definition quiet (e : Event) : bool :=
  match e with
  | EvStat _ | EvDbGet _ | EvSign _ | EvProgress _ _ _ | EvLog _ => true
  | _ => false
  end.

(** One schedule of the whole job: a worker takes each task as soon as it is
    sent and finishes it before the next line is read. *)
Definition step_eagerly (E : Env) (downConfig : DownloadConfig)
    (domainOfBucket ioProxyAddress : string) (st : State) (text : string) : State :=
  let st1 := process_line E downConfig domainOfBucket ioProxyAddress text st in
  match skipn (length (sent st)) (sent st1) with
  | t :: _ => run_task E downConfig domainOfBucket t st1
  | [] => st1
  end.

Definition run_eagerly (E : Env) (downConfig : DownloadConfig)
    (domainOfBucket ioProxyAddress : string) (lines : list string)
    (st : State) : State :=
  fold_left (step_eagerly E downConfig domainOfBucket ioProxyAddress) lines
    (set_cnt (set_total (GetFileLineCount lines) zeroCounters) st).

(** Lines 385-387: the exit status after the report. *)
Definition exitsWithError (st : State) : bool := 0 <? failureFileCount (cnt st).

(** The time stored for a path is the listed one, or nothing is stored. *)
Definition recorded (d : gmap string string) (key : string) (fileMtime : Z) : Prop :=
  d !! key = None \/ exists v, d !! key = Some v /\ oldFileLmd v = fileMtime.

(** The state a successful run leaves for a listing: the final file of every
    classified record has the listed size, and the store holds, under the key
    the controller reads, either nothing or the listed time. *)
Definition settled (downConfig : DownloadConfig) (lines : list string)
    (f d : gmap string string) : Prop :=
  forall text fileKey fileSize fileMtime,
    In text lines ->
    objectOf text = Some (fileKey, fileSize, fileMtime) ->
    filtered downConfig fileKey = false ->
    (exists c, f !! localFilePath downConfig fileKey = Some c /\ len c = fileSize) /\
    recorded d (localFilePath downConfig fileKey) fileMtime.

(** What the workers may have done between two iterations of the scan loop:
    they change local files, their own counters and the trace, and leave the
    store, the tasks sent and the controller's counters alone. *)
Definition worker_effect (st st' : State) : Prop :=
  db st' = db st /\ sent st' = sent st /\
  totalFileCount (cnt st') = totalFileCount (cnt st) /\
  currentFileCount (cnt st') = currentFileCount (cnt st) /\
  existsFileCount (cnt st') = existsFileCount (cnt st) /\
  skipBySuffixes (cnt st') = skipBySuffixes (cnt st).

(** The scan loop while the workers run. *)
Inductive loop_among_workers (E : Env) (downConfig : DownloadConfig)
    (domainOfBucket ioProxyAddress : string) : list string -> State -> State -> Prop :=
| law_done (st : State) :
    loop_among_workers E downConfig domainOfBucket ioProxyAddress [] st st
| law_step (text : string) (rest : list string) (st st1 st' : State) :
    worker_effect
      (process_line E downConfig domainOfBucket ioProxyAddress text st) st1 ->
    loop_among_workers E downConfig domainOfBucket ioProxyAddress rest st1 st' ->
    loop_among_workers E downConfig domainOfBucket ioProxyAddress (text :: rest) st st'.

(** No record of the listing is written under the key read for another
    record that has a different time. *)
Definition no_clash (E : Env) (downConfig : DownloadConfig) (lines : list string)
  : Prop :=
  forall text text' k s m k' s' m',
    In text lines -> In text' lines ->
    objectOf text = Some (k, s, m) -> filtered downConfig k = false ->
    objectOf text' = Some (k', s', m') -> filtered downConfig k' = false ->
    localAbsFilePath E downConfig k' = localFilePath downConfig k ->
    m' = m.

(** The store holds nothing under a key the controller reads but never
    writes. *)
Definition clean_store (E : Env) (downConfig : DownloadConfig)
    (lines : list string) (d : gmap string string) : Prop :=
  forall text k s m,
    In text lines ->
    objectOf text = Some (k, s, m) -> filtered downConfig k = false ->
    localFilePath downConfig k <> localAbsFilePath E downConfig k ->
    d !! localFilePath downConfig k = None.

(** The invariant of the scan loop: the listed time is recorded for every
    classified record already processed, and for every one whose read key is
    not its write key. *)
Definition records (E : Env) (downConfig : DownloadConfig)
    (all done : list string) (d : gmap string string) : Prop :=
  forall text k s m,
    In text all ->
    objectOf text = Some (k, s, m) -> filtered downConfig k = false ->
    In text done \/ localFilePath downConfig k <> localAbsFilePath E downConfig k ->
    recorded d (localFilePath downConfig k) m.

(** ** The worker pool: [initDownOnce] and [downloadTasks] *)

(** The channel with its capacity and buffered tasks (oldest first), and the
    number of [doDownload] goroutines reading from it. *)
Record Pool := {
  capacity : Z;
  workers : Z;
  queue : list Task
}.



(** [task := <-tasks]: [None] when the receive has to wait. *)
Definition chan_recv (p : Pool) : option (Task * Pool) :=
  match queue p with
  | t :: q => Some (t, {| capacity := capacity p; workers := workers p; queue := q |})
  | [] => None
  end.

(** One turn of [doDownload]: a worker receives the oldest task and runs
    it. *)
Definition doDownload (E : Env) (downConfig : DownloadConfig)
    (domainOfBucket : string) (p : Pool) (st : State) : option (Pool * State) :=
  match chan_recv p with
  | Some (task, p') => Some (p', run_task E downConfig domainOfBucket task st)
  | None => None
  end.

(** ** Decimal numerals *)

(** The value of a decimal numeral read after [n]. *)
Fixpoint uval (d : uint) (n : Z) : Z :=
  match d with
  | Nil => n
  | D0 l => uval l (n * 10 + 0)
  | D1 l => uval l (n * 10 + 1)
  | D2 l => uval l (n * 10 + 2)
  | D3 l => uval l (n * 10 + 3)
  | D4 l => uval l (n * 10 + 4)
  | D5 l => uval l (n * 10 + 5)
  | D6 l => uval l (n * 10 + 6)
  | D7 l => uval l (n * 10 + 7)
  | D8 l => uval l (n * 10 + 8)
  | D9 l => uval l (n * 10 + 9)
  end.

(** ** Paths, schedules and accounting *)

(** [has c s]: the character occurs in the string. *)
Fixpoint has (c : ascii) (s : string) : bool :=
  match s with
  | EmptyString => false
  | String a s' => Ascii.eqb a c || has c s'
  end.

(** A path element that [Clean] keeps as it is. *)
Definition plain (e : string) : Prop := e <> "" /\ e <> "." /\ e <> "..".

(** A whole job under any schedule: the controller scans the lines in order,
    and between two of its iterations, before the first and after the last
    (until [downWaitGroup.Wait()] returns) the workers run tasks that were
    sent and not yet run, in any order. A task is one step of the run. The
    second index is the list of tasks sent and not yet run. *)
Inductive job_run (E : Env) (downConfig : DownloadConfig)
    (domainOfBucket ioProxyAddress : string)
  : list string -> list Task -> State -> State -> Prop :=
| jr_done (st : State) :
    job_run E downConfig domainOfBucket ioProxyAddress [] [] st st
| jr_scan (text : string) (rest : list string) (pending : list Task)
    (st st' : State) :
    job_run E downConfig domainOfBucket ioProxyAddress rest
      (pending ++
       skipn (length (sent st))
         (sent (process_line E downConfig domainOfBucket ioProxyAddress text st)))
      (process_line E downConfig domainOfBucket ioProxyAddress text st) st' ->
    job_run E downConfig domainOfBucket ioProxyAddress (text :: rest) pending st st'
| jr_work (lines : list string) (before : list Task) (task : Task)
    (after : list Task) (st st' : State) :
    job_run E downConfig domainOfBucket ioProxyAddress lines (before ++ after)
      (run_task E downConfig domainOfBucket task st) st' ->
    job_run E downConfig domainOfBucket ioProxyAddress lines
      (before ++ task :: after) st st'.

(** The state the scan loop starts in. *)
Definition startState (lines : list string) (f d : gmap string string) : State :=
  set_cnt (set_total (GetFileLineCount lines) zeroCounters) (initState f d).

(** The counters while the job runs: [n] lines are scanned. *)
Definition accounted (n : nat) (pending : list Task) (st : State) : Prop :=
  currentFileCount (cnt st) = Z.of_nat n /\
  0 <= existsFileCount (cnt st) /\ 0 <= skipBySuffixes (cnt st) /\
  0 <= updateFileCount (cnt st) <= successFileCount (cnt st) /\
  0 <= failureFileCount (cnt st) /\
  successFileCount (cnt st) + failureFileCount (cnt st)
    + Z.of_nat (length pending) = Z.of_nat (length (sent st)) /\
  existsFileCount (cnt st) + skipBySuffixes (cnt st)
    + Z.of_nat (length (sent st)) <= Z.of_nat n.

(** ** Sample data *)

Definition tab : string := String "009" "".

(** A listing line: key, size, ETag and modification time. *)
Definition record (key size etag mtime : string) : string :=
  key ++ tab ++ size ++ tab ++ etag ++ tab ++ mtime.

(** [n] bytes. *)
Fixpoint blob (n : nat) : string :=
  match n with
  | O => ""
  | S n' => String "x" (blob n')
  end.

Definition sampleConfig (destDir suffixes : string) : DownloadConfig :=
  {| DestDir := destDir; Bucket := "bucket"; Prefix := ""; Suffixes := suffixes;
     CdnDomain := ""; DownProxy := "" |}.

(** An environment where the local calls succeed, the working directory is
    [/home/u] and the network answers with [answer]. *)
Definition sampleEnv (answer : Request -> option Response) : Env :=
  {| getwd := Some "/home/u";
     MkdirAll_ok := fun _ => true;
     url_Parse_ok := fun _ => true;
     NewRequest_ok := fun _ => true;
     client_Do := fun _ req => answer req;
     open_ok := fun _ => true;
     Rename_ok := fun _ _ => true;
     Now_Unix := fun _ => 1400000000;
     PrivateUrl :=
       fun publicUrl deadline =>
         (publicUrl ++ "?e=" ++ strconv.FormatInt deadline ++ "&token=t")%string |}.

(** A server holding an object of [whole] bytes that honours a range request
    with the [rest] last bytes. *)
Definition serveRange (whole rest : nat) (req : Request) : option Response :=
  match Header req with
  | [] => Some {| StatusCode := 200; Body := blob whole; CopyErr := false |}
  | _ => Some {| StatusCode := 206; Body := blob rest; CopyErr := false |}
  end.

(** A server that ignores the range header. *)
Definition serveWhole (whole : nat) (req : Request) : option Response :=
  Some {| StatusCode := 200; Body := blob whole; CopyErr := false |}.

(** A connection that breaks after [n] bytes. *)
Definition serveBroken (n : nat) (req : Request) : option Response :=
  Some {| StatusCode := 200; Body := blob n; CopyErr := true |}.

(** * Properties *)

(** ** The library functions on sample inputs *)

Example TrimSpace_ex : strings.TrimSpace "  a b	 " = "a b".
Proof. reflexivity. Qed.
Example Split_ex : strings.Split "a,,b" ","%char = ["a"; ""; "b"].
Proof. reflexivity. Qed.
Example ParseInt_ex1 : strconv.ParseInt "-120" = (-120, None).
Proof. reflexivity. Qed.
Example ParseInt_ex2 : strconv.ParseInt "12a" = (0, Some strconv.ErrSyntax).
Proof. reflexivity. Qed.
Example ParseInt_ex3 :
  strconv.ParseInt "9223372036854775808" = (9223372036854775807, Some strconv.ErrRange).
Proof. vm_compute. reflexivity. Qed.
Example FormatInt_ex : strconv.FormatInt (-1000) = "-1000".
Proof. reflexivity. Qed.
Example Replace_ex :
  strings.Replace "http://dom/a?u=http://dom" "http://dom" "io" = "io/a?u=io".
Proof. reflexivity. Qed.
Example Clean_ex : filepath.Clean "/a//b/./c/../d/" = "/a/b/d".
Proof. reflexivity. Qed.
Example Join_ex : filepath.Join "backup" "a/../b.png" = "backup/b.png".
Proof. reflexivity. Qed.
Example Abs_ex : filepath.Abs (Some "/home/u") "backup/b.png" = "/home/u/backup/b.png".
Proof. reflexivity. Qed.

Example Dir_ex : filepath.Dir "/data/a/b.png" = "/data/a".
Proof. reflexivity. Qed.

(** ** Strings and paths *)

Lemma length_append (a b : string) :
  String.length (a ++ b) = (String.length a + String.length b)%nat.
Proof. induction a as [|c a IH]; simpl; [reflexivity | now rewrite IH]. Qed.

Lemma len_append (a b : string) : len (a ++ b) = len a + len b.
Proof. unfold len. rewrite length_append. lia. Qed.

(** The temporary path is never the final path. *)
Lemma tmp_neq (p : string) : (p ++ ".tmp")%string <> p.
Proof.
  intros H. apply (f_equal String.length) in H.
  rewrite length_append in H. simpl in H. lia.
Qed.

Lemma append_nil_l (s : string) : ("" ++ s)%string = s.
Proof. reflexivity. Qed.

Lemma append_cons (c : ascii) (a b : string) :
  (String c a ++ b)%string = String c (a ++ b)%string.
Proof. reflexivity. Qed.



(** ** Numbers as text *)

Lemma uval_ge (d : uint) (n : Z) : 0 <= n -> n <= uval d n.
Proof.
  revert n. induction d; intros n Hn; simpl; try lia;
    match goal with
    | |- _ <= uval _ ?m => specialize (IHd m ltac:(lia)); lia
    end.
Qed.

Lemma of_uint_acc_uval (d : uint) (acc : positive) :
  Z.pos (Pos.of_uint_acc d acc) = uval d (Z.pos acc).
Proof.
  revert acc. induction d; intros acc; simpl; try reflexivity;
    rewrite IHd; f_equal; lia.
Qed.

Lemma of_uint_uval (d : uint) : Z.of_N (Pos.of_uint d) = uval d 0.
Proof.
  induction d; simpl; try reflexivity; try assumption;
    rewrite of_uint_acc_uval; reflexivity.
Qed.

Lemma uval_to_uint (p : positive) : uval (Pos.to_uint p) 0 = Z.pos p.
Proof. rewrite <- of_uint_uval, Unsigned.of_to. reflexivity. Qed.

(** The digit loop reads a numeral back, as long as it fits 64 bits. *)
Lemma ParseUint_loop_numeral (d : uint) (n : Z) :
  0 <= n -> uval d n <= strconv.maxUint64 ->
  strconv.ParseUint_loop (NilEmpty.string_of_uint d) n = (uval d n, None).
Proof.
  revert n. induction d; intros n Hn Hmax; simpl in Hmax |- *;
    try reflexivity;
    match goal with
    | H : uval d ?m <= _ |- _ =>
        pose proof (uval_ge d m ltac:(lia)) as Hge;
        rewrite <- (IHd m ltac:(lia) H)
    end;
    unfold strconv.digit; simpl;
    rewrite Z.geb_leb, Z.gtb_ltb;
    repeat match goal with
           | |- context [Z.of_nat (nat_of_ascii ?c) - 48] =>
               let v := eval vm_compute in (Z.of_nat (nat_of_ascii c) - 48) in
               change (Z.of_nat (nat_of_ascii c) - 48) with v
           end;
    let c := eval vm_compute in (strconv.maxUint64 / 10 + 1) in
    change (strconv.maxUint64 / 10 + 1) with c;
    let m := eval vm_compute in strconv.maxUint64 in
    change strconv.maxUint64 with m in *;
    match goal with
    | |- (if ?a <=? ?b then _ else _) = _ =>
        destruct (Z.leb_spec a b); [lia |]
    end;
    match goal with
    | |- (if ?a <? ?b then _ else _) = _ =>
        destruct (Z.ltb_spec a b); [lia |]
    end;
    reflexivity.
Qed.

(** [ParseInt] reads back what ["%d"] prints, for every [int64]. *)
Lemma ParseInt_FormatInt (z : Z) :
  strconv.minInt64 <= z <= strconv.maxInt64 ->
  strconv.ParseInt (strconv.FormatInt z) = (z, None).
Proof.
  unfold strconv.minInt64, strconv.maxInt64. intros Hz.
  destruct z as [|p|p]; [reflexivity | |].
  - unfold strconv.FormatInt. simpl.
    pose proof (Unsigned.to_uint_nonnil p) as Hnil.
    pose proof (uval_to_uint p) as Hval.
    assert (Hloop : strconv.ParseUint_loop
                      (NilEmpty.string_of_uint (Pos.to_uint p)) 0 = (Z.pos p, None)).
    { rewrite <- Hval. apply ParseUint_loop_numeral; [lia |].
      rewrite Hval. unfold strconv.maxUint64. lia. }
    destruct (Pos.to_uint p) eqn:Hd; [congruence | ..];
      unfold NilZero.string_of_uint;
      cbn [NilEmpty.string_of_uint strconv.ParseInt Ascii.eqb Bool.eqb];
      cbn [NilEmpty.string_of_uint] in Hloop;
      unfold strconv.ParseUint; rewrite Hloop;
      cbn [negb andb];
      rewrite Z.geb_leb;
      (destruct (Z.leb_spec (2 ^ 63) (Z.pos p)); [lia | reflexivity]).
  - unfold strconv.FormatInt. simpl.
    pose proof (Unsigned.to_uint_nonnil p) as Hnil.
    pose proof (uval_to_uint p) as Hval.
    assert (Hloop : strconv.ParseUint_loop
                      (NilEmpty.string_of_uint (Pos.to_uint p)) 0 = (Z.pos p, None)).
    { rewrite <- Hval. apply ParseUint_loop_numeral; [lia |].
      rewrite Hval. unfold strconv.maxUint64. lia. }
    unfold strconv.ParseUint.
    destruct (Pos.to_uint p) eqn:Hd; [congruence | ..];
      unfold NilZero.string_of_uint;
      cbn [NilEmpty.string_of_uint] in Hloop |- *;
      rewrite Hloop;
      cbn [negb andb];
      rewrite Z.gtb_ltb;
      (destruct (Z.ltb_spec (2 ^ 63) (Z.pos p)); [lia | reflexivity]).
Qed.

Lemma digit_nonneg (c : ascii) (d : Z) : strconv.digit c = Some d -> 0 <= d.
Proof.
  unfold strconv.digit. intros H.
  destruct (48 <=? Z.of_nat (nat_of_ascii c)) eqn:Hlo; simpl in H; [| discriminate].
  destruct (Z.of_nat (nat_of_ascii c) <=? 57); [| discriminate].
  apply Z.leb_le in Hlo. injection H as <-. lia.
Qed.

Lemma ParseUint_loop_nonneg (s : string) (n v : Z) (e : option strconv.NumError) :
  0 <= n -> strconv.ParseUint_loop s n = (v, e) -> 0 <= v.
Proof.
  revert n. induction s as [|c s IH]; intros n Hn H; simpl in H.
  - injection H as <- _. exact Hn.
  - destruct (strconv.digit c) as [d|] eqn:Hd; [| injection H as <- _; lia].
    apply digit_nonneg in Hd.
    destruct (n >=? strconv.maxUint64 / 10 + 1);
      [injection H as <- _; unfold strconv.maxUint64; lia |].
    destruct (n * 10 + d >? strconv.maxUint64);
      [injection H as <- _; unfold strconv.maxUint64; lia |].
    apply (IH (n * 10 + d)); [lia | exact H].
Qed.

(** A value [ParseInt] accepts is an [int64]. *)
Lemma ParseInt_range (s : string) (z : Z) :
  strconv.ParseInt s = (z, None) ->
  strconv.minInt64 <= z <= strconv.maxInt64.
Proof.
  unfold strconv.ParseInt, strconv.minInt64, strconv.maxInt64.
  destruct s as [|c0 r]; [discriminate |].
  set (sel := if Ascii.eqb c0 "+" then (false, r)
              else if Ascii.eqb c0 "-" then (true, r) else (false, String c0 r)).
  destruct sel as [neg s1].
  destruct (strconv.ParseUint s1) as [un e] eqn:Hun.
  assert (Hnn : 0 <= un).
  { unfold strconv.ParseUint in Hun. destruct s1; [injection Hun as <- _; lia |].
    eapply ParseUint_loop_nonneg; [| exact Hun]. lia. }
  intros H.
  assert (Hcases :
    (if negb neg && (un >=? 2 ^ 63) then (2 ^ 63 - 1, Some strconv.ErrRange)
     else if neg && (un >? 2 ^ 63) then (- 2 ^ 63, Some strconv.ErrRange)
     else (if neg then - un else un, None)) = (z, None)).
  { destruct e as [[|]|]; [discriminate | exact H | exact H]. }
  clear H. rewrite Z.geb_leb, Z.gtb_ltb in Hcases.
  destruct neg; simpl in Hcases.
  - destruct (Z.ltb_spec (2 ^ 63) un); [discriminate |].
    injection Hcases as <-. lia.
  - destruct (Z.leb_spec (2 ^ 63) un); [discriminate |].
    injection Hcases as <-. lia.
Qed.

(** The first field of a text that starts with a bar-free prefix. *)
Lemma Split_first_cons (c sep : ascii) (s : string) :
  Ascii.eqb c sep = false ->
  List.nth 0 (strings.Split (String c s) sep) "" =
  String c (List.nth 0 (strings.Split s sep) "").
Proof.
  intros H. simpl. rewrite H. destruct (strings.Split s sep); reflexivity.
Qed.

Lemma Split_first_numeral (d : uint) (r : string) :
  List.nth 0 (strings.Split (NilEmpty.string_of_uint d ++ r) "|"%char) "" =
  (NilEmpty.string_of_uint d ++ List.nth 0 (strings.Split r "|"%char) "")%string.
Proof.
  induction d; cbn [NilEmpty.string_of_uint];
    rewrite ?append_nil_l, ?append_cons; try reflexivity;
    rewrite Split_first_cons by reflexivity; rewrite IHd; reflexivity.
Qed.

Lemma append_nil_r (s : string) : (s ++ "")%string = s.
Proof. induction s as [|c s IH]; [reflexivity |]. rewrite append_cons, IH. reflexivity. Qed.

Lemma Split_first_FormatInt (z : Z) (r : string) :
  List.nth 0 (strings.Split (strconv.FormatInt z ++ String "|" r) "|"%char) "" =
  strconv.FormatInt z.
Proof.
  assert (Hu : forall d, List.nth 0
                 (strings.Split (NilZero.string_of_uint d ++ String "|" r) "|"%char) ""
               = NilZero.string_of_uint d).
  { intros d.
    assert (He : List.nth 0
                   (strings.Split (NilEmpty.string_of_uint d ++ String "|" r) "|"%char) ""
                 = NilEmpty.string_of_uint d).
    { rewrite Split_first_numeral. simpl. apply append_nil_r. }
    destruct d; try exact He. reflexivity. }
  unfold strconv.FormatInt.
  destruct (Z.to_int z) as [d|d]; unfold NilZero.string_of_int.
  - apply Hu.
  - rewrite append_cons, Split_first_cons by reflexivity. now rewrite Hu.
Qed.

(** The stored value gives back the time it was made from. *)
Lemma oldFileLmd_rVal (fileMtime fileSize : Z) :
  strconv.minInt64 <= fileMtime <= strconv.maxInt64 ->
  oldFileLmd (rVal fileMtime fileSize) = fileMtime.
Proof.
  intros H. unfold oldFileLmd, rVal.
  change ("|" ++ strconv.FormatInt fileSize)%string
    with (String "|" (strconv.FormatInt fileSize)).
  rewrite Split_first_FormatInt, ParseInt_FormatInt by exact H. reflexivity.
Qed.

(** Counting up in [int64]. *)
Lemma add64_wrap64 (a b : Z) : add64 (wrap64 a) b = wrap64 (a + b).
Proof.
  unfold add64, wrap64.
  replace ((a + 2 ^ 63) mod 2 ^ 64 - 2 ^ 63 + b + 2 ^ 63)
    with ((a + 2 ^ 63) mod 2 ^ 64 + b) by lia.
  rewrite Z.add_mod_idemp_l by lia.
  f_equal. f_equal. lia.
Qed.

(** ** The transfer protocol *)

(** Membership in an explicit list of events, case by case. *)
Ltac in_cases :=
  repeat match goal with
         | H : In _ (_ ++ _) |- _ => apply in_app_or in H
         | H : In _ (_ :: _) |- _ => simpl in H
         | H : In _ [] |- _ => destruct H
         | H : False |- _ => destruct H
         | H : _ \/ _ |- _ => destruct H
         | H : @eq Event _ _ |- _ => progress simplify_eq
         end.

Section Transfer.

Variable E : Env.
Variables destDir fileName fileUrl domainsOfBucket downProxy : string.
Variables fileSize fromBytes : Z.

Let final := filepath.Join destDir fileName.
Let tmp := (filepath.Join destDir fileName ++ ".tmp")%string.

(** A failed transfer touches at most the temporary file, and does not
    remove it. *)
Lemma downloadFile_failure_frame (f f' : gmap string string) (e : Error)
    (tr : list Event) :
  downloadFile E destDir fileName fileUrl domainsOfBucket downProxy
    fileSize fromBytes f = (f', Some e, tr) ->
  (forall p, p <> tmp -> f' !! p = f !! p) /\
  (is_Some (f !! tmp) -> is_Some (f' !! tmp)).
Proof.
  unfold downloadFile, openTmp, os_Rename. intros H.
  repeat case_match; simplify_eq;
    (split; [intros p Hp | intros Hs]);
    rewrite ?lookup_insert_eq, ?lookup_insert_ne by (subst tmp; congruence);
    eauto.
Qed.

(** A successful transfer: the server answered 2xx, the copy was complete,
    and the final file is what the temporary file held after the copy. *)
Lemma downloadFile_success (f f' : gmap string string) (tr : list Event) :
  downloadFile E destDir fileName fileUrl domainsOfBucket downProxy
    fileSize fromBytes f = (f', None, tr) ->
  exists resp f1 old,
    client_Do E (clientOf downProxy)
      (mkRequest (remoteUrl downProxy fileUrl) domainsOfBucket fromBytes)
      = Some resp /\
    Z.quot (StatusCode resp) 100 = 2 /\
    CopyErr resp = false /\
    openTmp E tmp fromBytes f = Some (f1, old) /\
    f' = <[final := (old ++ Body resp)%string]>
           (delete tmp (<[tmp := (old ++ Body resp)%string]> f1)) /\
    tr = [EvMkdirAll (filepath.Dir final);
          EvDo (clientOf downProxy)
            (mkRequest (remoteUrl downProxy fileUrl) domainsOfBucket fromBytes);
          openEvent tmp fromBytes;
          EvCopy tmp (len (Body resp)) true;
          EvRename tmp final].
Proof.
  unfold downloadFile, os_Rename. intros H.
  repeat case_match; simplify_eq.
  match goal with
  | Hr : client_Do _ _ _ = Some ?r, Ho : openTmp _ _ _ _ = Some (?g, ?o) |- _ =>
      exists r, g, o
  end.
  match goal with Hc : CopyErr _ = false |- _ => rewrite Hc end.
  rewrite lookup_insert_eq in *. simplify_eq.
  repeat split; try assumption; try reflexivity.
  now apply Z.eqb_eq.
Qed.

(** Every request a transfer sends is the one built by [mkRequest]. *)
Lemma downloadFile_request (f f' : gmap string string) (err : option Error)
    (tr : list Event) (client : option string) (req : Request) :
  downloadFile E destDir fileName fileUrl domainsOfBucket downProxy
    fileSize fromBytes f = (f', err, tr) ->
  In (EvDo client req) tr ->
  client = clientOf downProxy /\
  req = mkRequest (remoteUrl downProxy fileUrl) domainsOfBucket fromBytes.
Proof.
  unfold downloadFile, openEvent. intros H Hin.
  repeat case_match; simplify_eq; in_cases; auto.
Qed.

(** The way the temporary file is opened follows [fromBytes]. *)
Lemma downloadFile_open (f f' : gmap string string) (err : option Error)
    (tr : list Event) (p : string) :
  downloadFile E destDir fileName fileUrl domainsOfBucket downProxy
    fileSize fromBytes f = (f', err, tr) ->
  (In (EvOpenAppend p) tr -> p = tmp /\ fromBytes <> 0) /\
  (In (EvCreate p) tr -> p = tmp /\ fromBytes = 0).
Proof.
  unfold downloadFile, openEvent. intros H.
  split; intros Hin;
    repeat case_match; simplify_eq; in_cases;
    split; try reflexivity; lia.
Qed.


(** A copy that stops on an error leaves the bytes written so far in the
    temporary file. *)
Lemma downloadFile_copy_error (f f' : gmap string string) (tr : list Event) :
  downloadFile E destDir fileName fileUrl domainsOfBucket downProxy
    fileSize fromBytes f = (f', Some CopyError, tr) ->
  exists resp f1 old,
    client_Do E (clientOf downProxy)
      (mkRequest (remoteUrl downProxy fileUrl) domainsOfBucket fromBytes)
      = Some resp /\
    CopyErr resp = true /\
    openTmp E tmp fromBytes f = Some (f1, old) /\
    f' !! tmp = Some (old ++ Body resp)%string.
Proof.
  unfold downloadFile, os_Rename. intros H.
  repeat case_match; simplify_eq.
  match goal with
  | Hr : client_Do _ _ _ = Some ?r, Ho : openTmp _ _ _ _ = Some (?g, ?o) |- _ =>
      exists r, g, o
  end.
  rewrite lookup_insert_eq. auto.
Qed.

(** C3. The final path receives a file only through the rename that follows a
    complete, error-free copy of the response body. Whenever the transfer
    returns an error (directory, proxy, request, network, status, open, copy
    or rename error) the final path holds what it held before, no file other
    than the temporary one is touched, and a temporary file that existed
    still exists; after a copy error it holds the bytes copied so far. *)
Theorem C3_final_only_by_rename_after_full_copy
    (f f' : gmap string string) (err : option Error) (tr : list Event) :
  downloadFile E destDir fileName fileUrl domainsOfBucket downProxy
    fileSize fromBytes f = (f', err, tr) ->
  (err <> None ->
     f' !! final = f !! final /\
     (forall p, p <> tmp -> f' !! p = f !! p) /\
     (is_Some (f !! tmp) -> is_Some (f' !! tmp))) /\
  (err = Some CopyError -> is_Some (f' !! tmp)) /\
  (f' !! final <> f !! final -> err = None) /\
  (err = None ->
     exists resp old tr0,
       client_Do E (clientOf downProxy)
         (mkRequest (remoteUrl downProxy fileUrl) domainsOfBucket fromBytes)
         = Some resp /\
       Z.quot (StatusCode resp) 100 = 2 /\
       CopyErr resp = false /\
       tr = tr0 ++ [EvCopy tmp (len (Body resp)) true; EvRename tmp final] /\
       f' !! final = Some (old ++ Body resp)%string /\
       f' !! tmp = None).
Proof.
  intros H.
  assert (Hfail : forall e, err = Some e ->
            f' !! final = f !! final /\
            (forall p, p <> tmp -> f' !! p = f !! p) /\
            (is_Some (f !! tmp) -> is_Some (f' !! tmp))).
  { intros e ->. destruct (downloadFile_failure_frame _ _ _ _ H) as [Hfr Htmp].
    repeat split; auto. apply Hfr. subst tmp final.
    intros Heq. symmetry in Heq. exact (tmp_neq _ Heq). }
  split; [| split; [| split]].
  - destruct err as [e|]; [intros _; exact (Hfail e eq_refl) | congruence].
  - intros ->. destruct (downloadFile_copy_error _ _ _ H) as (r & g & o & _ & _ & _ & Hl).
    rewrite Hl. eauto.
  - intros Hne. destruct err as [e|]; [| reflexivity].
    destruct (Hfail e eq_refl) as [Heq _]. contradiction.
  - intros ->.
    destruct (downloadFile_success _ _ _ H)
      as (r & g & o & Hdo & Hst & Hcp & Hop & -> & ->).
    exists r, o,
      [EvMkdirAll (filepath.Dir final);
       EvDo (clientOf downProxy)
         (mkRequest (remoteUrl downProxy fileUrl) domainsOfBucket fromBytes);
       openEvent tmp fromBytes].
    repeat split; auto.
    + apply lookup_insert_eq.
    + rewrite lookup_insert_ne
        by (subst tmp final; intros Heq; symmetry in Heq; exact (tmp_neq _ Heq)).
      apply lookup_delete_eq.
Qed.


End Transfer.

(** ** The job controller *)

Section Controller.

Variable E : Env.
Variable downConfig : DownloadConfig.
Variables domainOfBucket ioProxyAddress : string.

Local Abbreviation process_line' :=
  (process_line E downConfig domainOfBucket ioProxyAddress).
Local Abbreviation process_object' :=
  (process_object E downConfig domainOfBucket ioProxyAddress).

(** A line that stands for a record and passes the filter is handled by
    [process_object]. *)
Lemma process_line_object (text fileKey : string) (fileSize fileMtime : Z)
    (st : State) :
  objectOf text = Some (fileKey, fileSize, fileMtime) ->
  filtered downConfig fileKey = false ->
  process_line' text st =
  process_object' fileKey fileSize fileMtime (count inc_current st).
Proof.
  unfold objectOf, process_line, items. intros Hobj Hf.
  repeat case_match; simplify_eq; try reflexivity; congruence.
Qed.

(** A record whose key fails the suffix test is only counted and logged. *)
Lemma process_line_filtered (text : string) (st : State) :
  (4 <= length (items text))%nat ->
  filtered downConfig (List.nth 0 (items text) "") = true ->
  process_line' text st =
  log (LogSkipSuffix (List.nth 0 (items text) ""))
    (count inc_skip (count inc_current st)).
Proof.
  unfold process_line, items. intros Hlen Hf.
  apply Nat.leb_le in Hlen. rewrite Hlen, Hf. reflexivity.
Qed.

(** When the decision is to download, the branching has only logged. *)
Lemma classify_download (lp abs tmp fileKey : string) (fileSize fileMtime : Z)
    (st st1 : State) (downNewLog : bool) (fromBytes : Z) :
  classify E lp abs tmp fileKey fileSize fileMtime st
    = (Download downNewLog fromBytes, st1) ->
  fs st1 = fs st /\ db st1 = db st /\ cnt st1 = cnt st /\ sent st1 = sent st /\
  exists evs, trace st1 = trace st ++ evs /\
              forall e, In e evs ->
                (exists p, e = EvStat p) \/ e = EvDbGet lp \/ exists m, e = EvLog m.
Proof.
  unfold classify, log, count. intros H.
  repeat case_match; simplify_eq; simpl;
    (repeat split; try reflexivity);
    rewrite <- ?app_assoc; simpl;
    (eexists; split; [reflexivity |]);
    intros e He; in_cases; eauto.
Qed.

(** What [process_object] does once the decision is to download: the store
    is written under the absolute path, then the task is sent. *)
Lemma process_object_download (fileKey : string) (fileSize fileMtime : Z)
    (st st1 : State) (downNewLog : bool) (fromBytes : Z) :
  classify E (localFilePath downConfig fileKey)
    (localAbsFilePath E downConfig fileKey)
    (localFilePathTmp downConfig fileKey) fileKey fileSize fileMtime
    (announce fileKey st)
    = (Download downNewLog fromBytes, st1) ->
  process_object' fileKey fileSize fileMtime st =
  dispatch (localAbsFilePath E downConfig fileKey) fileKey
    (fileUrlOf E downConfig domainOfBucket ioProxyAddress fileKey)
    fileSize fileMtime downNewLog fromBytes st1.
Proof.
  unfold process_object. intros H. rewrite H. reflexivity.
Qed.




(** A final file of the listed size, with no stored time or the listed one,
    is counted as existing and nothing else happens. *)
Lemma classify_satisfied (lp abs tmp fileKey c : string) (fileSize fileMtime : Z)
    (st : State) :
  fs st !! lp = Some c ->
  len c = fileSize ->
  recorded (db st) lp fileMtime ->
  exists st1,
    classify E lp abs tmp fileKey fileSize fileMtime st = (Continue, st1) /\
    fs st1 = fs st /\ db st1 = db st /\ sent st1 = sent st /\
    cnt st1 = inc_exists (cnt st) /\
    exists evs, trace st1 = trace st ++ evs /\ forallb quiet evs = true.
Proof.
  intros Hfs Hlen Hdb. unfold classify. simpl. rewrite Hfs.
  apply Z.eqb_eq in Hlen.
  destruct Hdb as [Hdb | (v & Hdb & Hv)]; rewrite Hdb.
  - rewrite Hlen. simpl. eexists. split; [reflexivity |].
    simpl. repeat split. rewrite <- !app_assoc. simpl.
    eexists. split; reflexivity.
  - apply Z.eqb_eq in Hv. rewrite Hv, Hlen. simpl.
    eexists. split; [reflexivity |].
    simpl. repeat split. rewrite <- !app_assoc. simpl.
    eexists. split; reflexivity.
Qed.

(** A line that is not classified changes neither the files, nor the store,
    nor the tasks, nor the result counters. *)
Lemma process_line_unclassified (text : string) (st : State) :
  classified downConfig text = false ->
  let st' := process_line' text st in
  fs st' = fs st /\ db st' = db st /\ sent st' = sent st /\
  totalFileCount (cnt st') = totalFileCount (cnt st) /\
  existsFileCount (cnt st') = existsFileCount (cnt st) /\
  updateFileCount (cnt st') = updateFileCount (cnt st) /\
  successFileCount (cnt st') = successFileCount (cnt st) /\
  failureFileCount (cnt st') = failureFileCount (cnt st) /\
  exists evs, trace st' = trace st ++ evs /\ forallb quiet evs = true.
Proof.
  unfold classified, objectOf, process_line, items. intros H.
  repeat case_match; simplify_eq; simpl in *; try discriminate;
    try match goal with
        | H1 : ?x = false, H2 : negb ?x = false |- _ =>
            rewrite H1 in H2; discriminate
        end;
    repeat split;
    try (exists []; rewrite app_nil_r; split; reflexivity);
    try (eexists; split; reflexivity).
Qed.

(** The iteration for a record that is already there. *)
Lemma process_line_satisfied (text fileKey c : string) (fileSize fileMtime : Z)
    (st : State) :
  objectOf text = Some (fileKey, fileSize, fileMtime) ->
  filtered downConfig fileKey = false ->
  fs st !! localFilePath downConfig fileKey = Some c ->
  len c = fileSize ->
  recorded (db st) (localFilePath downConfig fileKey) fileMtime ->
  let st' := process_line' text st in
  fs st' = fs st /\ db st' = db st /\ sent st' = sent st /\
  cnt st' = inc_exists (inc_current (cnt st)) /\
  exists evs, trace st' = trace st ++ evs /\ forallb quiet evs = true.
Proof.
  intros Hobj Hf Hfs Hlen Hdb st'. subst st'.
  rewrite (process_line_object _ _ _ _ _ Hobj Hf).
  unfold process_object.
  destruct (classify_satisfied (localFilePath downConfig fileKey)
              (localAbsFilePath E downConfig fileKey)
              (localFilePathTmp downConfig fileKey) fileKey c fileSize fileMtime
              (announce fileKey (count inc_current st)) Hfs Hlen Hdb)
    as (st1 & Hc & H1 & H2 & H3 & H4 & evs & H5 & H6).
  rewrite Hc. rewrite H1, H2, H3, H4. simpl. repeat split.
  exists ([EvSign fileKey;
           EvProgress fileKey (add64 (currentFileCount (cnt st)) 1)
             (totalFileCount (cnt st))] ++ evs).
  rewrite H5. simpl. rewrite <- !app_assoc. simpl. split; [reflexivity | exact H6].
Qed.

(** The scan loop over a settled listing. *)
Lemma loop_settled (lines : list string) (st : State) (a : Z) :
  settled downConfig lines (fs st) (db st) ->
  existsFileCount (cnt st) = wrap64 a ->
  let st' := fold_left (fun st text => process_line' text st) lines st in
  fs st' = fs st /\ db st' = db st /\ sent st' = sent st /\
  totalFileCount (cnt st') = totalFileCount (cnt st) /\
  existsFileCount (cnt st') =
    wrap64 (a + Z.of_nat (length (List.filter (classified downConfig) lines))) /\
  exists evs, trace st' = trace st ++ evs /\ forallb quiet evs = true.
Proof.
  revert st a. induction lines as [|text lines IH]; intros st a Hset Ha; simpl.
  - rewrite Z.add_0_r. repeat split; auto.
    exists []. rewrite app_nil_r. split; reflexivity.
  - assert (Hstep :
      let st1 := process_line' text st in
      fs st1 = fs st /\ db st1 = db st /\ sent st1 = sent st /\
      totalFileCount (cnt st1) = totalFileCount (cnt st) /\
      existsFileCount (cnt st1) =
        wrap64 (a + if classified downConfig text then 1 else 0) /\
      exists evs, trace st1 = trace st ++ evs /\ forallb quiet evs = true).
    { destruct (classified downConfig text) eqn:Hcl.
      - unfold classified in Hcl.
        destruct (objectOf text) as [[[fileKey fileSize] fileMtime]|] eqn:Hobj;
          [| discriminate].
        apply negb_true_iff in Hcl.
        destruct (Hset text fileKey fileSize fileMtime (or_introl eq_refl) Hobj Hcl)
          as ((c & Hc & Hlen) & Hdb).
        destruct (process_line_satisfied text fileKey c fileSize fileMtime st
                    Hobj Hcl Hc Hlen Hdb) as (H1 & H2 & H3 & H4 & H5).
        simpl. rewrite H1, H2, H3, H4. simpl. rewrite Ha, add64_wrap64.
        repeat split; auto.
      - destruct (process_line_unclassified text st Hcl)
          as (H1 & H2 & H3 & H4 & H5 & _ & _ & _ & H6).
        simpl. rewrite H1, H2, H3, H4, H5, Ha, Z.add_0_r. repeat split; auto. }
    simpl in Hstep. destruct Hstep as (H1 & H2 & H3 & H4 & H5 & evs1 & H6 & H7).
    assert (Hset' : settled downConfig lines (fs (process_line' text st))
                      (db (process_line' text st))).
    { rewrite H1, H2. intros t k sz m Hin. apply Hset. right. exact Hin. }
    destruct (IH _ _ Hset' H5) as (I1 & I2 & I3 & I4 & I5 & evs2 & I6 & I7).
    rewrite I1, I2, I3, I4, I5, H1, H2, H3, H4.
    repeat split; auto.
    + f_equal. destruct (classified downConfig text); simpl length; lia.
    + exists (evs1 ++ evs2). rewrite I6, H6, <- app_assoc.
      split; [reflexivity |]. rewrite forallb_app, H7, I7. reflexivity.
Qed.

(** *** What a run leaves in the store *)

Lemma objectOf_int64 (text fileKey : string) (fileSize fileMtime : Z) :
  objectOf text = Some (fileKey, fileSize, fileMtime) ->
  strconv.minInt64 <= fileMtime <= strconv.maxInt64.
Proof.
  unfold objectOf. intros H. repeat case_match; simplify_eq.
  eapply ParseInt_range; eassumption.
Qed.

(** When the branching ends in [continue], the store is as it was and holds
    the listed time or nothing for the path. *)
Lemma classify_continue_recorded (lp abs tmp fileKey : string)
    (fileSize fileMtime : Z) (st st1 : State) :
  classify E lp abs tmp fileKey fileSize fileMtime st = (Continue, st1) ->
  db st1 = db st /\ recorded (db st) lp fileMtime.
Proof.
  unfold classify, recorded. simpl. intros H.
  repeat case_match; simplify_eq; simpl; (split; [reflexivity |]);
    try (left; reflexivity);
    right; eexists; (split; [reflexivity |]);
    repeat match goal with
           | H : _ && _ = true |- _ => apply andb_prop in H; destruct H
           end;
    apply Z.eqb_eq; assumption.
Qed.

(** The store after the iteration for a classified record. *)
Lemma process_line_store (text fileKey : string) (fileSize fileMtime : Z)
    (st : State) :
  objectOf text = Some (fileKey, fileSize, fileMtime) ->
  filtered downConfig fileKey = false ->
  let st' := process_line' text st in
  (db st' = db st /\ recorded (db st) (localFilePath downConfig fileKey) fileMtime) \/
  db st' = <[localAbsFilePath E downConfig fileKey := rVal fileMtime fileSize]> (db st).
Proof.
  intros Hobj Hf st'. subst st'.
  rewrite (process_line_object _ _ _ _ _ Hobj Hf). unfold process_object.
  destruct (classify E (localFilePath downConfig fileKey)
              (localAbsFilePath E downConfig fileKey)
              (localFilePathTmp downConfig fileKey) fileKey fileSize fileMtime
              (announce fileKey (count inc_current st)))
    as [[|downNewLog fromBytes] st1] eqn:Hc.
  - left. apply classify_continue_recorded in Hc. exact Hc.
  - right. destruct (classify_download _ _ _ _ _ _ _ _ _ _ Hc) as (_ & Hdb & _).
    unfold dispatch. simpl. rewrite Hdb. reflexivity.
Qed.

Lemma recorded_insert (d : gmap string string) (key key2 : string)
    (m s m2 : Z) :
  strconv.minInt64 <= m <= strconv.maxInt64 ->
  (key = key2 -> m = m2) ->
  (key <> key2 -> recorded d key2 m2) ->
  recorded (<[key := rVal m s]> d) key2 m2.
Proof.
  intros Hm Heq Hne. unfold recorded.
  destruct (decide (key = key2)) as [<- | Hk].
  - right. exists (rVal m s). rewrite lookup_insert_eq. split; [reflexivity |].
    rewrite oldFileLmd_rVal by exact Hm. now apply Heq.
  - rewrite lookup_insert_ne by exact Hk. now apply Hne.
Qed.

Lemma loop_records (all : list string) :
  no_clash E downConfig all ->
  forall rest st st1,
    loop_among_workers E downConfig domainOfBucket ioProxyAddress rest st st1 ->
    forall done,
      (forall text, In text rest -> In text all) ->
      records E downConfig all done (db st) ->
      records E downConfig all (done ++ rest) (db st1).
Proof.
  intros Hclash rest st st1 Hloop.
  induction Hloop as [st | text rest st st1 st' Hw Hloop IH]; intros done Hincl Hinv.
  - rewrite app_nil_r. exact Hinv.
  - replace (done ++ text :: rest) with ((done ++ [text]) ++ rest)
      by (rewrite <- app_assoc; reflexivity).
    apply IH; [intros t Ht; apply Hincl; right; exact Ht |].
    destruct Hw as (Hdb & _). rewrite Hdb. clear Hdb IH Hloop.
    assert (Htext : In text all) by (apply Hincl; left; reflexivity).
    destruct (classified downConfig text) eqn:Hcl.
    + unfold classified in Hcl.
      destruct (objectOf text) as [[[k0 s0] m0]|] eqn:Hobj0; [| discriminate].
      apply negb_true_iff in Hcl.
      pose proof (objectOf_int64 _ _ _ _ Hobj0) as Hm0.
      destruct (process_line_store text k0 s0 m0 st Hobj0 Hcl) as [[Hdb Hrec] | Hdb];
        rewrite Hdb; intros t k s m Hin Hobj Hf Hor.
      * destruct Hor as [Hd | Hne]; [| apply (Hinv t k s m); auto].
        apply in_app_or in Hd. destruct Hd as [Hd | [<- | []]];
          [apply (Hinv t k s m); auto |].
        rewrite Hobj0 in Hobj. injection Hobj as <- <- <-. exact Hrec.
      * apply recorded_insert; [exact Hm0 | |].
        -- intros Hk. exact (Hclash t text k s m k0 s0 m0 Hin Htext Hobj Hf Hobj0 Hcl Hk).
        -- intros Hk.
           destruct Hor as [Hd | Hne]; [| apply (Hinv t k s m); auto].
           apply in_app_or in Hd. destruct Hd as [Hd | [<- | []]];
             [apply (Hinv t k s m); auto |].
           rewrite Hobj0 in Hobj. injection Hobj as <- <- <-.
           apply (Hinv text k0 s0 m0); auto; right; congruence.
    + destruct (process_line_unclassified text st Hcl) as (_ & Hdb & _).
      rewrite Hdb. intros t k s m Hin Hobj Hf Hor.
      destruct Hor as [Hd | Hne]; [| apply (Hinv t k s m); auto].
      apply in_app_or in Hd. destruct Hd as [Hd | [<- | []]];
        [apply (Hinv t k s m); auto |].
      unfold classified in Hcl. rewrite Hobj, Hf in Hcl. discriminate.
Qed.

(** A transfer is one of the effects the loop allows for between two
    iterations. *)
Lemma run_task_worker_effect (t : Task) (st : State) :
  worker_effect st (run_task E downConfig domainOfBucket t st).
Proof.
  unfold worker_effect, run_task.
  destruct (transfer E downConfig domainOfBucket t (fs st)) as [[f' [e|]] tr];
    simpl; [tauto |].
  destruct (negb (t_downNewLog t)); simpl; tauto.
Qed.

(** After a run of the scan loop, with the workers running in between, the
    store holds the listed time (or nothing) under the key read for every
    classified record, provided no two records clash on a key and the store
    was clean. *)
Lemma run_records_listing (lines : list string) (st st1 : State) :
  loop_among_workers E downConfig domainOfBucket ioProxyAddress lines st st1 ->
  no_clash E downConfig lines ->
  clean_store E downConfig lines (db st) ->
  forall text k s m,
    In text lines ->
    objectOf text = Some (k, s, m) -> filtered downConfig k = false ->
    recorded (db st1) (localFilePath downConfig k) m.
Proof.
  intros Hloop Hclash Hclean text k s m Hin Hobj Hf.
  assert (Hinit : records E downConfig lines [] (db st)).
  { intros t k' s' m' Hin' Hobj' Hf' [[] | Hne].
    left. exact (Hclean t k' s' m' Hin' Hobj' Hf' Hne). }
  pose proof (loop_records lines Hclash lines st st1 Hloop [] (fun _ H => H) Hinit)
    as Hr.
  apply (Hr text k s m Hin Hobj Hf). left. exact Hin.
Qed.

(** Two runs: when the first run ends with the final file of every
    classified record at the listed size, the second run sends nothing. *)
Lemma second_run_sends_nothing (lines : list string) (st st1 : State) :
  loop_among_workers E downConfig domainOfBucket ioProxyAddress lines st st1 ->
  no_clash E downConfig lines ->
  clean_store E downConfig lines (db st) ->
  (forall text k s m,
     In text lines ->
     objectOf text = Some (k, s, m) -> filtered downConfig k = false ->
     exists c, fs st1 !! localFilePath downConfig k = Some c /\ len c = s) ->
  sent (controller E downConfig domainOfBucket ioProxyAddress lines
          (initState (fs st1) (db st1))) = [].
Proof.
  intros Hloop Hclash Hclean Hfiles.
  assert (Hset : settled downConfig lines (fs st1) (db st1)).
  { intros text k s m Hin Hobj Hf. split; [eapply Hfiles; eassumption |].
    eapply run_records_listing; eassumption. }
  unfold controller.
  pose proof (loop_settled lines
                (set_cnt (set_total (GetFileLineCount lines) zeroCounters)
                   (initState (fs st1) (db st1))) 0 Hset eq_refl)
    as (_ & _ & H3 & _).
  exact H3.
Qed.

Lemma worker_effect_refl (st : State) : worker_effect st st.
Proof. unfold worker_effect. tauto. Qed.

(** The scan loop alone, and the eager schedule, are runs of the loop among
    workers. *)
Lemma loop_alone (lines : list string) (st : State) :
  loop_among_workers E downConfig domainOfBucket ioProxyAddress lines st
    (fold_left (fun st text => process_line' text st) lines st).
Proof.
  revert st. induction lines as [|text lines IH]; intros st; simpl.
  - constructor.
  - econstructor; [apply worker_effect_refl | apply IH].
Qed.

Lemma loop_eagerly (lines : list string) (st : State) :
  loop_among_workers E downConfig domainOfBucket ioProxyAddress lines st
    (fold_left (step_eagerly E downConfig domainOfBucket ioProxyAddress) lines st).
Proof.
  revert st. induction lines as [|text lines IH]; intros st; simpl.
  - constructor.
  - econstructor; [| apply IH]. unfold step_eagerly.
    destruct (skipn _ _); [apply worker_effect_refl | apply run_task_worker_effect].
Qed.







(** A temporary file shorter than the listed size, with the listed time
    stored, is continued from its size. *)
Lemma classify_resume (lp abs tmp fileKey c v : string) (fileSize fileMtime : Z)
    (st : State) :
  fs st !! lp = None ->
  fs st !! tmp = Some c ->
  len c < fileSize ->
  db st !! lp = Some v ->
  oldFileLmd v = fileMtime ->
  classify E lp abs tmp fileKey fileSize fileMtime st =
  (Download false (len c),
   emit (EvDbGet lp) (emit (EvStat tmp) (emit (EvStat lp) st))).
Proof.
  intros Hf Ht Hlen Hdb Hv. unfold classify. simpl.
  rewrite Hf, Ht, Hdb.
  apply Z.eqb_eq in Hv. rewrite Hv.
  destruct (Z.ltb_spec (len c) fileSize); [reflexivity | lia].
Qed.

(** The iteration for a record whose temporary file is to be continued. *)
Lemma process_line_resume (text fileKey c v : string) (fileSize fileMtime : Z)
    (st : State) :
  objectOf text = Some (fileKey, fileSize, fileMtime) ->
  filtered downConfig fileKey = false ->
  fs st !! localFilePath downConfig fileKey = None ->
  fs st !! localFilePathTmp downConfig fileKey = Some c ->
  len c < fileSize ->
  db st !! localFilePath downConfig fileKey = Some v ->
  oldFileLmd v = fileMtime ->
  let st' := process_line' text st in
  sent st' =
    sent st ++ [taskOf E downConfig domainOfBucket ioProxyAddress
                  fileKey fileSize false (len c)] /\
  fs st' = fs st /\
  db st' = <[localAbsFilePath E downConfig fileKey := rVal fileMtime fileSize]> (db st).
Proof.
  intros Hobj Hf Hfin Htmp Hlen Hdb Hv st'. subst st'.
  rewrite (process_line_object _ _ _ _ _ Hobj Hf).
  pose proof (classify_resume (localFilePath downConfig fileKey)
                (localAbsFilePath E downConfig fileKey)
                (localFilePathTmp downConfig fileKey) fileKey c v
                fileSize fileMtime (announce fileKey (count inc_current st))
                Hfin Htmp Hlen Hdb Hv) as Hc.
  rewrite (process_object_download _ _ _ _ _ _ _ Hc).
  unfold dispatch, taskOf. simpl. auto.
Qed.

(** C2 (amended). For a record with no final file, a temporary file of size
    K with 0 < K < S, and a stored time equal to the listed one, the
    controller sends a task with offset K. Every request of that transfer
    carries the header [Range: bytes=K-], the temporary file is opened in
    append mode and never created anew, and when the transfer succeeds the
    final file is the old temporary content followed by the response body:
    its size is K plus the length of the body, so exactly S when the server
    answers with the S - K remaining bytes. *)
Theorem C2_resume_requests_range_and_appends
    (text fileKey c v : string) (fileSize fileMtime : Z) (st : State) :
  objectOf text = Some (fileKey, fileSize, fileMtime) ->
  filtered downConfig fileKey = false ->
  fs st !! localFilePath downConfig fileKey = None ->
  fs st !! localFilePathTmp downConfig fileKey = Some c ->
  0 < len c < fileSize ->
  db st !! localFilePath downConfig fileKey = Some v ->
  oldFileLmd v = fileMtime ->
  let st' := process_line' text st in
  let t := taskOf E downConfig domainOfBucket ioProxyAddress
             fileKey fileSize false (len c) in
  sent st' = sent st ++ [t] /\
  forall f' err tr,
    transfer E downConfig domainOfBucket t (fs st') = (f', err, tr) ->
    (forall client req, In (EvDo client req) tr ->
       Header req = [("Range", ("bytes=" ++ strconv.FormatInt (len c) ++ "-")%string)]) /\
    (forall p, ~ In (EvCreate p) tr) /\
    (err = None ->
       In (EvOpenAppend (localFilePathTmp downConfig fileKey)) tr /\
       exists resp,
         In (EvDo (clientOf (DownProxy downConfig))
               (mkRequest (remoteUrl (DownProxy downConfig) (t_fileUrl t))
                  (hostOf downConfig domainOfBucket) (len c))) tr /\
         client_Do E (clientOf (DownProxy downConfig))
           (mkRequest (remoteUrl (DownProxy downConfig) (t_fileUrl t))
              (hostOf downConfig domainOfBucket) (len c)) = Some resp /\
         f' !! localFilePath downConfig fileKey = Some (c ++ Body resp)%string /\
         len (c ++ Body resp) = len c + len (Body resp) /\
         (len (Body resp) = fileSize - len c -> len (c ++ Body resp) = fileSize)).
Proof.
  intros Hobj Hf Hfin Htmp [Hpos Hlt] Hdb Hv st' t.
  destruct (process_line_resume text fileKey c v fileSize fileMtime st
              Hobj Hf Hfin Htmp Hlt Hdb Hv) as (Hsent & Hfs & _).
  split; [exact Hsent |].
  intros f' err tr Htr. subst st'. rewrite Hfs in Htr.
  unfold transfer in Htr. simpl in Htr.
  assert (Hnz : (len c =? 0) = false) by (apply Z.eqb_neq; lia).
  split; [| split].
  - intros client req Hin.
    destruct (downloadFile_request _ _ _ _ _ _ _ _ _ _ _ _ _ _ Htr Hin) as [_ ->].
    unfold mkRequest, rangeHeader. simpl. rewrite Hnz. reflexivity.
  - intros p Hin.
    destruct (downloadFile_open _ _ _ _ _ _ _ _ _ _ _ _ p Htr) as [_ Hcr].
    destruct (Hcr Hin) as [_ H0]. lia.
  - intros ->.
    destruct (downloadFile_success _ _ _ _ _ _ _ _ _ _ _ Htr)
      as (resp & f1 & old & Hdo & Hst & Hcp & Hop & -> & ->).
    unfold openTmp in Hop. rewrite Hnz in Hop. simpl in Hop.
    unfold localFilePathTmp, localFilePath in Htmp. rewrite Htmp in Hop.
    destruct (open_ok E _); [| discriminate]. injection Hop as <- <-.
    split.
    + unfold openEvent. rewrite Hnz. simpl. unfold localFilePathTmp, localFilePath. tauto.
    + exists resp. split; [simpl; tauto |]. split; [exact Hdo |].
      split; [apply lookup_insert_eq |].
      rewrite len_append. split; lia.
Qed.



End Controller.

(** A transfer never writes the resume store. *)
Lemma run_task_db (E : Env) (downConfig : DownloadConfig) (domainOfBucket : string)
    (t : Task) (st : State) :
  db (run_task E downConfig domainOfBucket t st) = db st.
Proof.
  unfold run_task. destruct (transfer E downConfig domainOfBucket t (fs st))
    as [[f' [e|]] tr]; simpl; [reflexivity |].
  destruct (negb (t_downNewLog t)); reflexivity.
Qed.

(** ** The worker pool *)



(** ** The claims at concrete inputs *)




(** C4, at a relative destination directory: classification reads the store
    under the path as joined, the write that follows uses the absolute path,
    and the entry is not found under the key that was read. *)
Theorem C4_read_key_is_not_the_written_key :
  let E := sampleEnv (serveRange 100 0) in
  let downConfig := sampleConfig "backup" "" in
  let st := initState {[ "backup/a.png" := blob 50 ]} ∅ in
  let st' := process_line E downConfig "dom" "io"
               (record "a.png" "100" "etag" "1000") st in
  trace st' =
    [EvSign "a.png"; EvProgress "a.png" 1 0;
     EvStat "backup/a.png"; EvDbGet "backup/a.png";
     EvLog (LogExistsSizeDiffers "/home/u/backup/a.png");
     EvDbPut "/home/u/backup/a.png" "1000|100";
     EvSend (taskOf E downConfig "dom" "io" "a.png" 100 true 0)] /\
  db st' !! "/home/u/backup/a.png" = Some "1000|100" /\
  db st' !! "backup/a.png" = None.
Proof. vm_compute. repeat split. Qed.

(** C9, at a temporary file that is complete: it is renamed and no task is
    sent, but the record is not counted as existing (nor anywhere else). *)
Theorem C9_promoted_temp_is_not_counted :
  let E := sampleEnv (fun _ => None) in
  let downConfig := sampleConfig "/data" "" in
  let st' := controller E downConfig "dom" "io"
               [record "a.png" "100" "etag" "1000"]
               (initState {[ "/data/a.png.tmp" := blob 100 ]}
                          {[ "/data/a.png" := "1000|100" ]}) in
  fs st' = {[ "/data/a.png" := blob 100 ]} /\
  sent st' = [] /\
  trace st' =
    [EvSign "a.png"; EvProgress "a.png" 1 1;
     EvStat "/data/a.png"; EvStat "/data/a.png.tmp"; EvDbGet "/data/a.png";
     EvRename "/data/a.png.tmp" "/data/a.png"] /\
  cnt st' =
    {| totalFileCount := 1; currentFileCount := 1; existsFileCount := 0;
       updateFileCount := 0; successFileCount := 0; failureFileCount := 0;
       skipBySuffixes := 0 |}.
Proof. vm_compute. repeat split. Qed.

(** A temporary file of 40 bytes out of 100 is continued with the 60 bytes
    the server sends for the range. *)
Lemma C2_witness :
  let E := sampleEnv (serveRange 100 60) in
  let downConfig := sampleConfig "/data" "" in
  let st := initState {[ "/data/a.png.tmp" := blob 40 ]}
                      {[ "/data/a.png" := "1000|100" ]} in
  let st' := process_line E downConfig "dom" "io"
               (record "a.png" "100" "etag" "1000") st in
  let t := taskOf E downConfig "dom" "io" "a.png" 100 false 40 in
  sent st' = [t] /\
  exists f' tr,
    transfer E downConfig "dom" t (fs st') = (f', None, tr) /\
    (forall client req, In (EvDo client req) tr ->
       Header req = [("Range", "bytes=40-")]) /\
    In (EvOpenAppend "/data/a.png.tmp") tr /\
    f' !! "/data/a.png" = Some (blob 100).
Proof.
  intros E downConfig st st' t.
  destruct (C2_resume_requests_range_and_appends E downConfig "dom" "io"
              (record "a.png" "100" "etag" "1000") "a.png" (blob 40) "1000|100"
              100 1000 st) as [Hsent Htr].
  - vm_compute. reflexivity.
  - vm_compute. reflexivity.
  - vm_compute. reflexivity.
  - vm_compute. reflexivity.
  - vm_compute. split; reflexivity.
  - vm_compute. reflexivity.
  - vm_compute. reflexivity.
  - split; [exact Hsent |].
    destruct (transfer E downConfig "dom" t (fs st')) as [[f' err] tr] eqn:Ht.
    assert (Herr : err = None) by (vm_compute in Ht; congruence).
    subst err. exists f', tr. split; [reflexivity |].
    destruct (Htr f' None tr Ht) as (Hreq & _ & Hok).
    destruct (Hok eq_refl) as (Hopen & resp & _ & Hresp & Hfinal & _).
    split; [exact Hreq |]. split; [exact Hopen |].
    vm_compute in Hresp. injection Hresp as <-. exact Hfinal.
Defined.

(** An empty temporary file is continued with a plain request and a newly
    created file; when the server ignores the range header the bytes of the
    whole object are appended to the 40 bytes already there; and when a final
    file of another size is there too, the temporary file is not continued
    but written anew. *)
Lemma C2_counterexample :
  (let E := sampleEnv (serveRange 100 100) in
   let downConfig := sampleConfig "/data" "" in
   let st := initState {[ "/data/a.png.tmp" := "" ]}
                       {[ "/data/a.png" := "1000|100" ]} in
   let st' := process_line E downConfig "dom" "io"
                (record "a.png" "100" "etag" "1000") st in
   let t := taskOf E downConfig "dom" "io" "a.png" 100 false 0 in
   sent st' = [t] /\
   snd (transfer E downConfig "dom" t (fs st')) =
     [EvMkdirAll "/data";
      EvDo None {| Method := "GET"; URL := t_fileUrl t; Host := "dom";
                   Header := [] |};
      EvCreate "/data/a.png.tmp";
      EvCopy "/data/a.png.tmp" 100 true;
      EvRename "/data/a.png.tmp" "/data/a.png"]) /\
  (let E := sampleEnv (serveWhole 100) in
   let downConfig := sampleConfig "/data" "" in
   let st := initState {[ "/data/a.png.tmp" := blob 40 ]}
                       {[ "/data/a.png" := "1000|100" ]} in
   let st' := process_line E downConfig "dom" "io"
                (record "a.png" "100" "etag" "1000") st in
   let t := taskOf E downConfig "dom" "io" "a.png" 100 false 40 in
   sent st' = [t] /\
   snd (fst (transfer E downConfig "dom" t (fs st'))) = None /\
   (len <$> fst (fst (transfer E downConfig "dom" t (fs st'))) !! "/data/a.png")
     = Some 140) /\
  (let E := sampleEnv (serveRange 100 60) in
   let downConfig := sampleConfig "/data" "" in
   let st := initState {[ "/data/a.png" := blob 50; "/data/a.png.tmp" := blob 40 ]}
                       {[ "/data/a.png" := "1000|100" ]} in
   let st' := process_line E downConfig "dom" "io"
                (record "a.png" "100" "etag" "1000") st in
   let t := taskOf E downConfig "dom" "io" "a.png" 100 true 0 in
   sent st' = [t] /\
   snd (transfer E downConfig "dom" t (fs st')) =
     [EvMkdirAll "/data";
      EvDo None {| Method := "GET"; URL := t_fileUrl t; Host := "dom";
                   Header := [] |};
      EvCreate "/data/a.png.tmp";
      EvCopy "/data/a.png.tmp" 100 true;
      EvRename "/data/a.png.tmp" "/data/a.png"]).
Proof. vm_compute. repeat split. Qed.

(** A connection that breaks after 30 bytes, while an older final file is
    in place. *)
Lemma C3_witness :
  let E := sampleEnv (serveBroken 30) in
  let f : gmap string string := {[ "/data/a.png" := blob 7 ]} in
  let r := downloadFile E "/data" "a.png" "io/a.png" "dom" "" 100 0 f in
  snd (fst r) = Some CopyError /\
  fst (fst r) !! "/data/a.png" = Some (blob 7) /\
  fst (fst r) !! "/data/a.png.tmp" = Some (blob 30).
Proof.
  intros E f r.
  pose proof (C3_final_only_by_rename_after_full_copy E "/data" "a.png" "io/a.png"
                "dom" "" 100 0 f (fst (fst r)) (snd (fst r)) (snd r))
    as H.
  destruct H as ((Hfinal & _ & _) & _).
  - vm_compute. reflexivity.
  - vm_compute. discriminate.
  - split; [vm_compute; reflexivity |].
    split; [| vm_compute; reflexivity].
    etransitivity; [exact Hfinal | vm_compute; reflexivity].
Defined.






(** The first scenario of the specification: one object, no local file. The
    entry is written before the task is sent, the temporary file is created
    and renamed, and the counters are total 1, success 1, failure 0. *)
Example scenario_first_download :
  let E := sampleEnv (serveRange 100 0) in
  let downConfig := sampleConfig "/data" "" in
  let st' := run_eagerly E downConfig "dom" "io"
               [record "a/b.png" "100" "etag" "1000"] (initState ∅ ∅) in
  fs st' = {[ "/data/a/b.png" := blob 100 ]} /\
  db st' = {[ "/data/a/b.png" := "1000|100" ]} /\
  trace st' =
    [EvSign "a/b.png"; EvProgress "a/b.png" 1 1;
     EvStat "/data/a/b.png"; EvStat "/data/a/b.png.tmp";
     EvDbPut "/data/a/b.png" "1000|100";
     EvSend (taskOf E downConfig "dom" "io" "a/b.png" 100 true 0);
     EvMkdirAll "/data/a";
     EvDo None {| Method := "GET"; URL := "io/a/b.png?e=1402592000&token=t";
                  Host := "dom"; Header := [] |};
     EvCreate "/data/a/b.png.tmp";
     EvCopy "/data/a/b.png.tmp" 100 true;
     EvRename "/data/a/b.png.tmp" "/data/a/b.png";
     EvLog (LogTransfer "a/b.png" None)] /\
  cnt st' =
    {| totalFileCount := 1; currentFileCount := 1; existsFileCount := 0;
       updateFileCount := 0; successFileCount := 1; failureFileCount := 0;
       skipBySuffixes := 0 |} /\
  exitsWithError st' = false.
Proof. vm_compute. repeat split. Qed.

(** Two runs in a row: the second one sends nothing. *)
Example scenario_second_run :
  let E := sampleEnv (serveRange 100 0) in
  let downConfig := sampleConfig "/data" "" in
  let lines := [record "a/b.png" "100" "etag" "1000"] in
  let st1 := run_eagerly E downConfig "dom" "io" lines (initState ∅ ∅) in
  let st2 := run_eagerly E downConfig "dom" "io" lines
               (initState (fs st1) (db st1)) in
  sent st2 = [] /\ existsFileCount (cnt st2) = 1 /\ successFileCount (cnt st2) = 0.
Proof. vm_compute. repeat split. Qed.

(** With a relative destination directory the change of the modification
    time goes unnoticed: the entry written by the first run is not found by
    the second, and the size alone decides. *)
Example scenario_relative_destination :
  let E := sampleEnv (serveRange 100 0) in
  let downConfig := sampleConfig "backup" "" in
  let st1 := run_eagerly E downConfig "dom" "io"
               [record "a.png" "100" "etag" "1000"] (initState ∅ ∅) in
  let st2 := run_eagerly E downConfig "dom" "io"
               [record "a.png" "100" "etag" "2000"]
               (initState (fs st1) (db st1)) in
  db st1 = {[ "/home/u/backup/a.png" := "1000|100" ]} /\
  sent st2 = [] /\ existsFileCount (cnt st2) = 1.
Proof. vm_compute. repeat split. Qed.

(** * Further properties of the code *)

(** ** Paths and resume keys *)

Lemma Split_not_nil (s : string) (c : ascii) : strings.Split s c <> [].
Proof.
  induction s as [|a s IH]; simpl; [discriminate |].
  destruct (Ascii.eqb a c); [discriminate |].
  destruct (strings.Split s c); [congruence | discriminate].
Qed.

Lemma Split_sepfree (s : string) (c : ascii) :
  Forall (fun e => has c e = false) (strings.Split s c).
Proof.
  induction s as [|a s IH]; simpl.
  - repeat constructor.
  - destruct (Ascii.eqb a c) eqn:Hac.
    + constructor; [reflexivity | exact IH].
    + destruct (strings.Split s c) as [|f fs]; [repeat constructor; simpl; now rewrite Hac |].
      inversion IH; subst. constructor; [simpl; now rewrite Hac | assumption].
Qed.

Lemma Split_app_sep (x rest : string) (c : ascii) :
  has c x = false ->
  strings.Split (x ++ String c rest) c = x :: strings.Split rest c.
Proof.
  induction x as [|a x IH]; intros H.
  - rewrite append_nil_l. simpl. now rewrite Ascii.eqb_refl.
  - simpl in H. apply orb_false_iff in H. destruct H as [Ha Hx].
    rewrite append_cons. simpl. rewrite Ha, (IH Hx). reflexivity.
Qed.

Lemma Split_sepfree_one (x : string) (c : ascii) :
  has c x = false -> strings.Split x c = [x].
Proof.
  induction x as [|a x IH]; intros H; [reflexivity |].
  simpl in H. apply orb_false_iff in H. destruct H as [Ha Hx].
  simpl. rewrite Ha, (IH Hx). reflexivity.
Qed.

Lemma Split_Join (es : list string) (c : ascii) :
  es <> [] ->
  Forall (fun e => has c e = false) es ->
  strings.Split (strings.Join es (String c "")) c = es.
Proof.
  induction es as [|x r IH]; intros Hne H; [congruence |].
  inversion H as [|? ? Hx Hr]; subst.
  destruct r as [|y r'].
  - simpl. now apply Split_sepfree_one.
  - change (strings.Join (x :: y :: r') (String c ""))
      with (x ++ String c "" ++ strings.Join (y :: r') (String c ""))%string.
    change (String c "" ++ strings.Join (y :: r') (String c ""))%string
      with (String c (strings.Join (y :: r') (String c ""))).
    rewrite Split_app_sep by exact Hx. rewrite IH; [reflexivity | discriminate | exact Hr].
Qed.

Lemma clean_elems_plain (rooted : bool) (es stack : list string) :
  Forall plain es ->
  filepath.clean_elems rooted es stack = rev stack ++ es.
Proof.
  revert stack. induction es as [|e es IH]; intros stack H; simpl.
  - now rewrite app_nil_r.
  - inversion H as [|? ? (H1 & H2 & H3) Hes]; subst.
    apply String.eqb_neq in H1, H2, H3. rewrite H1, H2, H3. simpl.
    rewrite (IH _ Hes). simpl. now rewrite <- app_assoc.
Qed.

(** What a rooted path is cleaned to: plain elements, none of them with a
    separator. *)
Lemma clean_elems_rooted_out (es stack : list string) :
  Forall (fun e => has "/"%char e = false) es ->
  Forall (fun e => plain e /\ has "/"%char e = false) stack ->
  Forall (fun e => plain e /\ has "/"%char e = false)
    (filepath.clean_elems true es stack).
Proof.
  revert stack. induction es as [|e es IH]; intros stack Hes Hst; simpl.
  - now apply Forall_rev.
  - inversion Hes as [|? ? He Hes']; subst.
    destruct (String.eqb_spec e "") as [->|N1]; simpl; [now apply IH |].
    destruct (String.eqb_spec e ".") as [->|N2]; simpl; [now apply IH |].
    destruct (String.eqb_spec e "..") as [->|N3].
    + destruct stack as [|top below]; [now apply IH |].
      inversion Hst as [|? ? [(_ & _ & Ht) _] Hb]; subst.
      apply String.eqb_neq in Ht. rewrite Ht. now apply IH.
    + apply IH; [assumption |]. constructor; [| assumption].
      split; [split; [| split] |]; assumption.
Qed.

(** What a relative path is cleaned to: elements that are not empty and have
    no separator. *)
Lemma clean_elems_out (rooted : bool) (es stack : list string) :
  Forall (fun e => has "/"%char e = false) es ->
  Forall (fun e => e <> "" /\ has "/"%char e = false) stack ->
  Forall (fun e => e <> "" /\ has "/"%char e = false)
    (filepath.clean_elems rooted es stack).
Proof.
  revert stack. induction es as [|e es IH]; intros stack Hes Hst; simpl.
  - now apply Forall_rev.
  - inversion Hes as [|? ? He Hes']; subst.
    destruct (String.eqb_spec e "") as [->|N1]; simpl; [now apply IH |].
    destruct (String.eqb_spec e ".") as [->|N2]; simpl; [now apply IH |].
    destruct (String.eqb_spec e "..") as [->|N3].
    + destruct stack as [|top below].
      * destruct rooted; apply IH; auto.
      * inversion Hst; subst.
        destruct (String.eqb top ".."); apply IH; auto.
    + apply IH; auto.
Qed.

Lemma HasPrefix_nil (s : string) : strings.HasPrefix s "" = true.
Proof. destruct s; reflexivity. Qed.

Lemma IsAbs_cons (c : ascii) (s : string) :
  filepath.IsAbs (String c s) = Ascii.eqb "/" c.
Proof.
  unfold filepath.IsAbs. simpl. rewrite HasPrefix_nil. apply andb_true_r.
Qed.

Lemma Forall_proj {A} (P Q : A -> Prop) (l : list A) :
  Forall (fun x => P x /\ Q x) l -> Forall P l /\ Forall Q l.
Proof. induction 1 as [|x l [Hp Hq] _ [IH1 IH2]]; split; constructor; auto. Qed.

Lemma Clean_rooted (p : string) :
  filepath.IsAbs p = true ->
  filepath.Clean p =
  String "/" (strings.Join
                (filepath.clean_elems true (strings.Split p filepath.sep) []) "/").
Proof. intros H. unfold filepath.Clean. rewrite H. reflexivity. Qed.

(** [Clean] leaves a clean rooted path as it is. *)
Lemma Clean_rooted_idem (p : string) :
  filepath.IsAbs p = true -> filepath.Clean (filepath.Clean p) = filepath.Clean p.
Proof.
  intros Habs. rewrite (Clean_rooted p Habs).
  set (es := filepath.clean_elems true (strings.Split p filepath.sep) []).
  assert (Hes : Forall (fun e => plain e /\ has "/"%char e = false) es).
  { apply clean_elems_rooted_out; [apply Split_sepfree | constructor]. }
  apply Forall_proj in Hes. destruct Hes as [Hplain Hfree].
  rewrite Clean_rooted by (rewrite IsAbs_cons; reflexivity).
  f_equal. f_equal. unfold filepath.sep.
  change (strings.Split (String "/" (strings.Join es "/")) "/")
    with ("" :: strings.Split (strings.Join es "/") "/").
  destruct es as [|e0 es'] eqn:He.
  - reflexivity.
  - rewrite (Split_Join (e0 :: es') "/"%char) by (try discriminate; exact Hfree).
    change (filepath.clean_elems true ("" :: e0 :: es') [])
      with (filepath.clean_elems true (e0 :: es') []).
    rewrite clean_elems_plain by exact Hplain. reflexivity.
Qed.

(** [Clean] keeps a path rooted or not. *)
Lemma IsAbs_Clean (p : string) : filepath.IsAbs (filepath.Clean p) = filepath.IsAbs p.
Proof.
  destruct (filepath.IsAbs p) eqn:Habs.
  - rewrite (Clean_rooted p Habs). now rewrite IsAbs_cons.
  - unfold filepath.Clean. rewrite Habs.
    set (es := filepath.clean_elems false (strings.Split p filepath.sep) []).
    assert (Hes : Forall (fun e => e <> "" /\ has "/"%char e = false) es).
    { apply clean_elems_out; [apply Split_sepfree | constructor]. }
    destruct (String.eqb_spec (strings.Join es "/") ""); [reflexivity |].
    destruct es as [|e0 es']; [reflexivity |].
    inversion Hes as [|? ? [Hne Hfree] _]; subst.
    destruct e0 as [|c e0]; [congruence |].
    simpl in Hfree. apply orb_false_iff in Hfree. destruct Hfree as [Hc _].
    assert (Hj : exists r, strings.Join (String c e0 :: es') "/" = String c r).
    { destruct es'; simpl; eauto. }
    destruct Hj as [r ->]. rewrite IsAbs_cons.
    rewrite Ascii.eqb_sym. exact Hc.
Qed.

Lemma Clean_not_empty (p : string) : filepath.Clean p <> "".
Proof.
  unfold filepath.Clean. destruct (filepath.IsAbs p); [discriminate |].
  destruct (String.eqb_spec
              (strings.Join (filepath.clean_elems false
                               (strings.Split p filepath.sep) []) "/") "");
    [discriminate | assumption].
Qed.

Lemma IsAbs_append (a b : string) :
  a <> "" -> filepath.IsAbs (a ++ b) = filepath.IsAbs a.
Proof.
  destruct a as [|c a]; [congruence |]. intros _.
  rewrite append_cons, !IsAbs_cons. reflexivity.
Qed.

Lemma IsAbs_Join (a b : string) :
  a <> "" -> filepath.IsAbs (filepath.Join a b) = filepath.IsAbs a.
Proof.
  intros Ha. unfold filepath.Join.
  destruct (String.eqb_spec a ""); [congruence |]. simpl.
  rewrite IsAbs_Clean. now apply IsAbs_append.
Qed.

Section Keys.
Variable E : Env.
Variable downConfig : DownloadConfig.

Lemma IsAbs_localFilePath (fileKey : string) :
  DestDir downConfig <> "" ->
  filepath.IsAbs (localFilePath downConfig fileKey)
    = filepath.IsAbs (DestDir downConfig).
Proof.
  intros Hne. unfold localFilePath. now rewrite IsAbs_Join.
Qed.

Lemma localFilePath_not_empty (fileKey : string) :
  DestDir downConfig <> "" -> localFilePath downConfig fileKey <> "".
Proof.
  intros Hne. unfold localFilePath, filepath.Join.
  destruct (String.eqb_spec (DestDir downConfig) ""); [congruence |]. simpl.
  apply Clean_not_empty.
Qed.

Lemma abs_key_of_absolute_dest (fileKey : string) :
  filepath.IsAbs (DestDir downConfig) = true ->
  localAbsFilePath E downConfig fileKey = localFilePath downConfig fileKey.
Proof.
  intros Habs. unfold localAbsFilePath, filepath.Abs.
  assert (Hne : DestDir downConfig <> "").
  { intros H. rewrite H in Habs. discriminate. }
  rewrite (IsAbs_localFilePath fileKey Hne), Habs.
  unfold localFilePath, filepath.Join.
  destruct (String.eqb_spec (DestDir downConfig) ""); [congruence |]. simpl.
  apply Clean_rooted_idem. rewrite IsAbs_append by exact Hne. exact Habs.
Qed.

Lemma abs_key_of_relative_dest (fileKey : string) :
  DestDir downConfig <> "" ->
  filepath.IsAbs (DestDir downConfig) = false ->
  (forall wd, getwd E = Some wd -> filepath.IsAbs wd = true) ->
  filepath.IsAbs (localAbsFilePath E downConfig fileKey) = true \/
  localAbsFilePath E downConfig fileKey = "".
Proof.
  intros Hne Hrel Hwd. unfold localAbsFilePath, filepath.Abs.
  rewrite (IsAbs_localFilePath fileKey Hne), Hrel.
  destruct (getwd E) as [wd|] eqn:Hg; [left | now right].
  specialize (Hwd wd eq_refl). rewrite IsAbs_Join; [exact Hwd |].
  intros ->. discriminate.
Qed.

(** X1. With an absolute destination directory the resume entry of a record
    is written under the key it is read under. *)
Theorem X1_absolute_dest_same_key (fileKey : string) :
  filepath.IsAbs (DestDir downConfig) = true ->
  localAbsFilePath E downConfig fileKey = localFilePath downConfig fileKey.
Proof.
  exact (abs_key_of_absolute_dest fileKey).
Qed.

(** X2. With a relative destination directory no key that is written is a
    key that is read, whatever the two records. *)
Theorem X2_relative_dest_other_key (written read : string) :
  DestDir downConfig <> "" ->
  filepath.IsAbs (DestDir downConfig) = false ->
  (forall wd, getwd E = Some wd -> filepath.IsAbs wd = true) ->
  localAbsFilePath E downConfig written <> localFilePath downConfig read.
Proof.
  intros Hne Hrel Hwd Heq.
  assert (Ha : filepath.IsAbs (localFilePath downConfig read) = false)
    by (now rewrite IsAbs_localFilePath).
  destruct (abs_key_of_relative_dest written Hne Hrel Hwd) as [Hk | Hk].
  - rewrite Heq in Hk. congruence.
  - rewrite Hk in Heq. symmetry in Heq.
    now apply (localFilePath_not_empty read).
Qed.
End Keys.

(** ** The transfer and the task closure *)

Lemma HasPrefix_append (p s : string) : strings.HasPrefix (p ++ s) p = true.
Proof.
  induction p as [|c p IH]; [apply HasPrefix_nil |].
  rewrite append_cons. simpl. now rewrite Ascii.eqb_refl, IH.
Qed.

Lemma Contains_HasPrefix (s sub : string) :
  strings.HasPrefix s sub = true -> strings.Contains s sub = true.
Proof. intros H. destruct s; cbn [strings.Contains]; rewrite H; reflexivity. Qed.

Lemma Contains_append (p s : string) : strings.Contains (p ++ s) p = true.
Proof. apply Contains_HasPrefix, HasPrefix_append. Qed.

Section TransferMore.

Variable E : Env.
Variables destDir fileName fileUrl domainsOfBucket downProxy : string.
Variables fileSize fromBytes : Z.

Let final := filepath.Join destDir fileName.
Let tmp := (filepath.Join destDir fileName ++ ".tmp")%string.

(** X3. Whatever the outcome, a transfer changes no path other than the
    final and the temporary one. *)
Theorem X3_transfer_touches_two_paths
    (f f' : gmap string string) (err : option Error) (tr : list Event) :
  downloadFile E destDir fileName fileUrl domainsOfBucket downProxy
    fileSize fromBytes f = (f', err, tr) ->
  forall p, p <> final -> p <> tmp -> f' !! p = f !! p.
Proof.
  unfold downloadFile, openTmp, os_Rename. intros H p Hf Ht.
  repeat case_match; simplify_eq;
    rewrite ?lookup_insert_ne, ?lookup_delete_ne, ?lookup_insert_ne
      by (subst tmp final; congruence);
    reflexivity.
Qed.

(** X4. A successful download from offset zero puts exactly the response
    body at the final path, whatever was there and whatever the temporary
    file held, and leaves no temporary file. *)
Theorem X4_fresh_download_overwrites
    (f f' : gmap string string) (tr : list Event) :
  fromBytes = 0 ->
  downloadFile E destDir fileName fileUrl domainsOfBucket downProxy
    fileSize fromBytes f = (f', None, tr) ->
  exists resp,
    client_Do E (clientOf downProxy)
      (mkRequest (remoteUrl downProxy fileUrl) domainsOfBucket 0) = Some resp /\
    f' = <[final := Body resp]> (delete tmp f).
Proof.
  intros -> H.
  destruct (downloadFile_success _ _ _ _ _ _ _ _ _ _ _ H)
    as (resp & f1 & old & Hdo & _ & _ & Hop & Hf' & _).
  exists resp. split; [exact Hdo |].
  unfold openTmp in Hop. simpl in Hop.
  destruct (open_ok E _); [| discriminate]. injection Hop as <- <-.
  rewrite Hf'. rewrite append_nil_l. fold tmp. fold final.
  rewrite insert_insert_eq. rewrite delete_insert_eq. reflexivity.
Qed.

(** X5. A transfer asked to continue a temporary file that is not there
    fails and changes nothing; when the request was sent and answered with a
    2xx status, the error is the one of opening the file. *)
Theorem X5_resume_without_temp_fails
    (f f' : gmap string string) (err : option Error) (tr : list Event) :
  fromBytes <> 0 ->
  f !! tmp = None ->
  downloadFile E destDir fileName fileUrl domainsOfBucket downProxy
    fileSize fromBytes f = (f', err, tr) ->
  err <> None /\ f' = f /\
  (forall resp,
     client_Do E (clientOf downProxy)
       (mkRequest (remoteUrl downProxy fileUrl) domainsOfBucket fromBytes)
       = Some resp ->
     Z.quot (StatusCode resp) 100 = 2 ->
     In (EvDo (clientOf downProxy)
           (mkRequest (remoteUrl downProxy fileUrl) domainsOfBucket fromBytes)) tr ->
     err = Some OpenErr).
Proof.
  intros Hnz Htmp. unfold downloadFile, openTmp.
  apply Z.eqb_neq in Hnz. rewrite Hnz. simpl negb. cbv iota.
  fold tmp. rewrite Htmp. intros H.
  repeat case_match; simplify_eq; (split; [discriminate |]); (split; [reflexivity |]);
    intros resp Hdo Hst Hin; try reflexivity; in_cases;
    try congruence.
  all: apply Z.eqb_eq in Hst; congruence.
Qed.

(** X6. The request of a transfer: always a GET with the bucket domain as
    host; without a proxy it goes directly to the URL as given; with a proxy,
    the proxy address and the URL are given the scheme when they lack it. *)
Theorem X6_request_shape
    (f f' : gmap string string) (err : option Error) (tr : list Event)
    (client : option string) (req : Request) :
  downloadFile E destDir fileName fileUrl domainsOfBucket downProxy
    fileSize fromBytes f = (f', err, tr) ->
  In (EvDo client req) tr ->
  Method req = "GET" /\ Host req = domainsOfBucket /\
  (downProxy = "" -> client = None /\ URL req = fileUrl) /\
  (downProxy <> "" ->
     exists proxy, client = Some proxy /\
       url_Parse_ok E proxy = true /\
       strings.Contains proxy "http" = true /\
       strings.Contains (URL req) "http://" = true /\
       (proxy = downProxy \/ proxy = ("http://" ++ downProxy)%string) /\
       (URL req = fileUrl \/ URL req = ("http://" ++ fileUrl)%string)).
Proof.
  intros H Hin.
  destruct (downloadFile_request _ _ _ _ _ _ _ _ _ _ _ _ _ _ H Hin) as [-> ->].
  split; [reflexivity |]. split; [reflexivity |]. split.
  - intros ->. split; reflexivity.
  - intros Hne. apply String.eqb_neq in Hne.
    unfold clientOf, remoteUrl, downloadProxy. rewrite Hne. simpl negb. cbv iota.
    assert (Hparse : url_Parse_ok E (downloadProxy downProxy) = true).
    { revert H. unfold downloadFile. rewrite Hne. simpl negb.
      destruct (url_Parse_ok E (downloadProxy downProxy)); [reflexivity |].
      simpl. intros H. repeat case_match; simplify_eq; in_cases. }
    unfold downloadProxy in Hparse.
    eexists. split; [reflexivity |].
    split; [exact Hparse |].
    split; [destruct (strings.Contains downProxy "http") eqn:Hc; simpl negb; cbv iota;
            [exact Hc | apply Contains_HasPrefix; reflexivity] |].
    split; [simpl andb; destruct (strings.Contains fileUrl "http://") eqn:Hc;
            simpl negb; cbv iota; [exact Hc | apply Contains_append] |].
    split.
    + destruct (strings.Contains downProxy "http"); simpl; auto.
    + simpl andb. destruct (strings.Contains fileUrl "http://"); simpl; auto.
Qed.

End TransferMore.

Section TaskMore.

Variable E : Env.
Variable downConfig : DownloadConfig.
Variable domainOfBucket : string.

(** The outcomes of a task. *)
Lemma run_task_outcomes (t : Task) (st : State) :
  let st' := run_task E downConfig domainOfBucket t st in
  let final := filepath.Join (DestDir downConfig) (t_fileKey t) in
  let tmp := (final ++ ".tmp")%string in
  db st' = db st /\ sent st' = sent st /\
  existsFileCount (cnt st') = existsFileCount (cnt st) /\
  skipBySuffixes (cnt st') = skipBySuffixes (cnt st) /\
  ((successFileCount (cnt st') = add64 (successFileCount (cnt st)) 1 /\
    failureFileCount (cnt st') = failureFileCount (cnt st) /\
    updateFileCount (cnt st') =
      (if t_downNewLog t then updateFileCount (cnt st)
       else add64 (updateFileCount (cnt st)) 1) /\
    is_Some (fs st' !! final) /\ fs st' !! tmp = None)
   \/
   (failureFileCount (cnt st') = add64 (failureFileCount (cnt st)) 1 /\
    successFileCount (cnt st') = successFileCount (cnt st) /\
    updateFileCount (cnt st') = updateFileCount (cnt st) /\
    fs st' !! final = fs st !! final)).
Proof.
  intros st' final tmp. subst st'. unfold run_task.
  destruct (transfer E downConfig domainOfBucket t (fs st)) as [[f' err] tr] eqn:Ht.
  unfold transfer in Ht.
  destruct err as [e|].
  - simpl. repeat split; try reflexivity. right. repeat split; try reflexivity.
    destruct (downloadFile_failure_frame _ _ _ _ _ _ _ _ _ _ _ _ Ht) as [Hfr _].
    apply Hfr. subst tmp final. intros Heq. symmetry in Heq. exact (tmp_neq _ Heq).
  - destruct (downloadFile_success _ _ _ _ _ _ _ _ _ _ _ Ht)
      as (resp & f1 & old & _ & _ & _ & _ & Hf' & _).
    assert (Hfin : is_Some (f' !! final) /\ f' !! tmp = None).
    { rewrite Hf'. fold final. fold tmp. split.
      - rewrite lookup_insert_eq. eauto.
      - rewrite lookup_insert_ne
          by (subst tmp; intros Heq; symmetry in Heq; exact (tmp_neq _ Heq)).
        apply lookup_delete_eq. }
    destruct (t_downNewLog t); simpl; repeat split; try reflexivity;
      left; repeat split; try reflexivity; tauto.
Qed.

(** X7. A task is counted exactly once: as a success, and then its final
    file is there and its temporary file is not, or as a failure, and then
    the final path holds what it held. It is counted as an update only when it
    succeeds without the new-download flag. The store and the tasks sent are
    not touched. *)
Theorem X7_task_counted_once (t : Task) (st : State) :
  let st' := run_task E downConfig domainOfBucket t st in
  let final := filepath.Join (DestDir downConfig) (t_fileKey t) in
  let tmp := (final ++ ".tmp")%string in
  db st' = db st /\ sent st' = sent st /\
  existsFileCount (cnt st') = existsFileCount (cnt st) /\
  skipBySuffixes (cnt st') = skipBySuffixes (cnt st) /\
  ((successFileCount (cnt st') = add64 (successFileCount (cnt st)) 1 /\
    failureFileCount (cnt st') = failureFileCount (cnt st) /\
    updateFileCount (cnt st') =
      (if t_downNewLog t then updateFileCount (cnt st)
       else add64 (updateFileCount (cnt st)) 1) /\
    is_Some (fs st' !! final) /\ fs st' !! tmp = None)
   \/
   (failureFileCount (cnt st') = add64 (failureFileCount (cnt st)) 1 /\
    successFileCount (cnt st') = successFileCount (cnt st) /\
    updateFileCount (cnt st') = updateFileCount (cnt st) /\
    fs st' !! final = fs st !! final)).
Proof.
  exact (run_task_outcomes t st).
Qed.

End TaskMore.

(** ** The scan loop *)

Section ControllerMore.

Variable E : Env.
Variable downConfig : DownloadConfig.
Variables domainOfBucket ioProxyAddress : string.

Local Abbreviation process_line' :=
  (process_line E downConfig domainOfBucket ioProxyAddress).

(** The iteration for a classified record whose branching ends in a
    download. *)
Lemma process_line_download (text fileKey : string) (fileSize fileMtime : Z)
    (st st1 : State) (downNewLog : bool) (fromBytes : Z) :
  objectOf text = Some (fileKey, fileSize, fileMtime) ->
  filtered downConfig fileKey = false ->
  classify E (localFilePath downConfig fileKey)
    (localAbsFilePath E downConfig fileKey)
    (localFilePathTmp downConfig fileKey) fileKey fileSize fileMtime
    (announce fileKey (count inc_current st))
    = (Download downNewLog fromBytes, st1) ->
  let t := taskOf E downConfig domainOfBucket ioProxyAddress
             fileKey fileSize downNewLog fromBytes in
  let st' := process_line' text st in
  sent st' = sent st ++ [t] /\
  fs st' = fs st /\
  db st' = <[localAbsFilePath E downConfig fileKey := rVal fileMtime fileSize]> (db st) /\
  cnt st' = inc_current (cnt st) /\
  exists evs,
    trace st' =
      trace st ++ evs ++
      [EvDbPut (localAbsFilePath E downConfig fileKey) (rVal fileMtime fileSize);
       EvSend t] /\
    forallb quiet evs = true.
Proof.
  intros Hobj Hf Hc t st'. subst st' t.
  rewrite (process_line_object _ _ _ _ _ _ _ _ _ Hobj Hf).
  rewrite (process_object_download _ _ _ _ _ _ _ _ _ _ _ Hc).
  destruct (classify_download _ _ _ _ _ _ _ _ _ _ _ Hc)
    as (Hfs & Hdb & Hcnt & Hsent & evs & Htr & Hq).
  unfold dispatch, taskOf. simpl. rewrite Hfs, Hdb, Hcnt, Hsent, Htr. simpl.
  repeat split.
  exists ([EvSign fileKey;
           EvProgress fileKey (add64 (currentFileCount (cnt st)) 1)
             (totalFileCount (cnt st))] ++ evs).
  split.
  - rewrite <- !app_assoc. reflexivity.
  - simpl. apply forallb_forall. intros e He.
    destruct (Hq e He) as [[p ->] | [-> | [m ->]]]; reflexivity.
Qed.

(** How the branching can end in [continue]: the final file has the listed
    size and the record is counted as existing, or there is no final file
    and a temporary file at least as large as listed, which is renamed (or
    the rename fails) without any counter moving. *)
Lemma classify_continue_cases (lp abs tmp fileKey : string)
    (fileSize fileMtime : Z) (st st1 : State) :
  classify E lp abs tmp fileKey fileSize fileMtime st = (Continue, st1) ->
  db st1 = db st /\ sent st1 = sent st /\
  ((exists c, fs st !! lp = Some c /\ len c = fileSize /\
              cnt st1 = inc_exists (cnt st) /\ fs st1 = fs st)
   \/
   (fs st !! lp = None /\ cnt st1 = cnt st /\
    exists c, fs st !! tmp = Some c /\ fileSize <= len c /\
              (fs st1 = fs st \/ fs st1 = <[lp := c]> (delete tmp (fs st))))).
Proof.
  unfold classify, os_Rename. simpl. intros H.
  repeat case_match; simplify_eq; simpl; (split; [reflexivity |]);
    (split; [reflexivity |]);
    repeat match goal with
           | H : _ && _ = true |- _ => apply andb_prop in H; destruct H
           | H : (_ =? _) = true |- _ => apply Z.eqb_eq in H
           | H : negb _ = false |- _ => apply negb_false_iff in H
           | H : (_ <? _) = false |- _ => apply Z.ltb_ge in H
           end;
    first
      [ left; eexists; split; [reflexivity |]; split; [assumption |];
        split; reflexivity
      | right; split; [reflexivity |]; split; [reflexivity |];
        eexists; split; [reflexivity |]; split; [assumption |];
        first [left; reflexivity | right; reflexivity] ].
Qed.

(** Everything an iteration of the scan loop can do. *)
Lemma process_line_outcomes (text : string) (st : State) :
  let st' := process_line' text st in
  (totalFileCount (cnt st') = totalFileCount (cnt st) /\
   currentFileCount (cnt st') = add64 (currentFileCount (cnt st)) 1 /\
   updateFileCount (cnt st') = updateFileCount (cnt st) /\
   successFileCount (cnt st') = successFileCount (cnt st) /\
   failureFileCount (cnt st') = failureFileCount (cnt st)) /\
  ((sent st' = sent st /\ db st' = db st /\
    existsFileCount (cnt st') = existsFileCount (cnt st) /\
    skipBySuffixes (cnt st') = skipBySuffixes (cnt st))
   \/
   (sent st' = sent st /\ db st' = db st /\ fs st' = fs st /\
    existsFileCount (cnt st') = add64 (existsFileCount (cnt st)) 1 /\
    skipBySuffixes (cnt st') = skipBySuffixes (cnt st) /\
    exists fileKey fileSize fileMtime c,
      objectOf text = Some (fileKey, fileSize, fileMtime) /\
      filtered downConfig fileKey = false /\
      fs st !! localFilePath downConfig fileKey = Some c /\ len c = fileSize)
   \/
   (sent st' = sent st /\ db st' = db st /\ fs st' = fs st /\
    existsFileCount (cnt st') = existsFileCount (cnt st) /\
    skipBySuffixes (cnt st') = add64 (skipBySuffixes (cnt st)) 1 /\
    filtered downConfig (List.nth 0 (items text) "") = true)
   \/
   (exists fileKey fileSize fileMtime downNewLog fromBytes evs,
      let t := taskOf E downConfig domainOfBucket ioProxyAddress
                 fileKey fileSize downNewLog fromBytes in
      objectOf text = Some (fileKey, fileSize, fileMtime) /\
      filtered downConfig fileKey = false /\
      sent st' = sent st ++ [t] /\ fs st' = fs st /\
      db st' =
        <[localAbsFilePath E downConfig fileKey := rVal fileMtime fileSize]> (db st) /\
      existsFileCount (cnt st') = existsFileCount (cnt st) /\
      skipBySuffixes (cnt st') = skipBySuffixes (cnt st) /\
      trace st' =
        trace st ++ evs ++
        [EvDbPut (localAbsFilePath E downConfig fileKey) (rVal fileMtime fileSize);
         EvSend t] /\
      forallb quiet evs = true)).
Proof.
  intros st'. subst st'.
  destruct (objectOf text) as [[[fileKey fileSize] fileMtime]|] eqn:Hobj.
  - destruct (filtered downConfig fileKey) eqn:Hf.
    + assert (Hk : fileKey = List.nth 0 (items text) "" /\
                   (4 <= length (items text))%nat).
      { unfold objectOf in Hobj. repeat case_match; simplify_eq.
        split; [reflexivity |]. now apply Nat.leb_le. }
      destruct Hk as [-> Hlen].
      rewrite (process_line_filtered _ _ _ _ _ _ Hlen Hf). simpl.
      split; [tauto |]. right. right. left. tauto.
    + rewrite (process_line_object _ _ _ _ _ _ _ _ _ Hobj Hf).
      destruct (classify E (localFilePath downConfig fileKey)
                  (localAbsFilePath E downConfig fileKey)
                  (localFilePathTmp downConfig fileKey) fileKey fileSize fileMtime
                  (announce fileKey (count inc_current st)))
        as [[|downNewLog fromBytes] st1] eqn:Hc.
      * unfold process_object. rewrite Hc.
        destruct (classify_continue_cases _ _ _ _ _ _ _ _ Hc)
          as (Hdb & Hsent & [(c & Hfs & Hlen & Hcnt & Hfs1) | (_ & Hcnt & _)]);
          rewrite ?Hdb, ?Hsent, ?Hcnt; simpl.
        -- split; [tauto |]. right. left. rewrite Hfs1. simpl.
           repeat split. exists fileKey, fileSize, fileMtime, c. auto.
        -- split; [tauto |]. left. tauto.
      * rewrite <- (process_line_object _ _ _ _ _ _ _ _ _ Hobj Hf).
        destruct (process_line_download text fileKey fileSize fileMtime st st1
                    downNewLog fromBytes Hobj Hf Hc)
          as (H1 & H2 & H3 & H4 & evs & H5 & H6).
        rewrite H4. simpl. split; [tauto |]. right. right. right.
        exists fileKey, fileSize, fileMtime, downNewLog, fromBytes, evs.
        simpl. tauto.
  - assert (Hcl : classified downConfig text = false)
      by (unfold classified; now rewrite Hobj).
    destruct (process_line_unclassified E downConfig domainOfBucket ioProxyAddress
                text st Hcl)
      as (H1 & H2 & H3 & H4 & H5 & H6 & H7 & H8 & _).
    assert (Hcur : currentFileCount (cnt (process_line' text st)) =
                   add64 (currentFileCount (cnt st)) 1 /\
                   (skipBySuffixes (cnt (process_line' text st)) =
                      skipBySuffixes (cnt st) \/
                    (skipBySuffixes (cnt (process_line' text st)) =
                       add64 (skipBySuffixes (cnt st)) 1 /\
                     filtered downConfig (List.nth 0 (items text) "") = true))).
    { unfold process_line. fold (items text).
      repeat case_match; simpl; auto.
      exfalso. unfold objectOf in Hobj.
      repeat case_match; simplify_eq. }
    destruct Hcur as [Hcur [Hsk | [Hsk Hf]]].
    + split; [tauto |]. left. tauto.
    + split; [tauto |]. right. right. left. tauto.
Qed.

(** A final file whose size is not the listed one leads to a download from
    offset zero, with or without an entry in the store. *)
Lemma classify_size_mismatch (lp abs tmp fileKey c : string)
    (fileSize fileMtime : Z) (st : State) :
  fs st !! lp = Some c ->
  len c <> fileSize ->
  exists st1,
    classify E lp abs tmp fileKey fileSize fileMtime st = (Download true 0, st1).
Proof.
  intros Hfs Hne. unfold classify. simpl. rewrite Hfs.
  apply Z.eqb_neq in Hne.
  destruct (db st !! lp); rewrite Hne, ?andb_false_r; simpl; eauto.
Qed.

(** X8. Size change detection. A record whose final file is there with a size
    other than the listed one is downloaded again from offset zero, whatever
    the store holds for it; the entry is rewritten for the listed state. *)
Theorem X8_size_mismatch_is_fresh_download
    (text fileKey c : string) (fileSize fileMtime : Z) (st : State) :
  objectOf text = Some (fileKey, fileSize, fileMtime) ->
  filtered downConfig fileKey = false ->
  fs st !! localFilePath downConfig fileKey = Some c ->
  len c <> fileSize ->
  let st' := process_line' text st in
  sent st' =
    sent st ++ [taskOf E downConfig domainOfBucket ioProxyAddress
                  fileKey fileSize true 0] /\
  fs st' = fs st /\
  db st' = <[localAbsFilePath E downConfig fileKey := rVal fileMtime fileSize]> (db st) /\
  existsFileCount (cnt st') = existsFileCount (cnt st).
Proof.
  intros Hobj Hf Hfs Hne st'. subst st'.
  destruct (classify_size_mismatch (localFilePath downConfig fileKey)
              (localAbsFilePath E downConfig fileKey)
              (localFilePathTmp downConfig fileKey) fileKey c fileSize fileMtime
              (announce fileKey (count inc_current st)) Hfs Hne) as [st1 Hc].
  destruct (process_line_download text fileKey fileSize fileMtime st st1 true 0
              Hobj Hf Hc) as (H1 & H2 & H3 & H4 & _).
  rewrite H1, H2, H3, H4. simpl. auto.
Qed.



(** The store and the tasks over the whole loop. *)
Lemma loop_store_grows (lines : list string) (st : State) :
  let st' := fold_left (fun st text => process_line' text st) lines st in
  exists new,
    sent st' = sent st ++ new /\
    (length new <= length lines)%nat /\
    (forall key, is_Some (db st !! key) -> is_Some (db st' !! key)) /\
    (forall t, In t new ->
       exists fileMtime fileSize,
         db st' !! localAbsFilePath E downConfig (t_fileKey t)
           = Some (rVal fileMtime fileSize)) /\
    (forall key v, db st' !! key = Some v ->
       db st !! key = Some v \/ exists fileMtime fileSize, v = rVal fileMtime fileSize).
Proof.
  revert st. induction lines as [|text lines IH]; intros st; simpl.
  - exists []. rewrite app_nil_r. repeat split; auto.
    intros t [].
  - destruct (IH (process_line' text st)) as (new & Hs & Hl & Hg & He & Hv).
    destruct (process_line_outcomes text st)
      as (_ & [(H1 & H2 & _) | [(H1 & H2 & _) | [(H1 & H2 & _)
              | (k & s & m & b & fb & evs & H)]]]);
      try (exists new; rewrite Hs, H1; rewrite H2 in Hg, Hv;
           repeat split; auto; lia).
    simpl in H. destruct H as (_ & _ & H1 & _ & H2 & _).
    exists (taskOf E downConfig domainOfBucket ioProxyAddress k s b fb :: new).
    rewrite Hs, H1, <- app_assoc. simpl. rewrite H2 in Hg, Hv.
    split; [reflexivity |]. split; [lia |]. split; [| split].
    + intros key Hk. apply Hg.
      destruct (decide (localAbsFilePath E downConfig k = key)) as [<- | Hne].
      * rewrite lookup_insert_eq. eauto.
      * rewrite lookup_insert_ne by exact Hne. exact Hk.
    + intros t [<- | Hin]; [| now apply He].
      simpl.
      destruct (Hg (localAbsFilePath E downConfig k)) as [v Hv'].
      { rewrite lookup_insert_eq. eauto. }
      destruct (Hv _ _ Hv') as [Hold | (m' & s' & ->)].
      * rewrite lookup_insert_eq in Hold. injection Hold as <-. eauto.
      * eauto.
    + intros key v Hk. destruct (Hv key v Hk) as [Hold | Hnew]; [| now right].
      destruct (decide (localAbsFilePath E downConfig k = key)) as [<- | Hne].
      * rewrite lookup_insert_eq in Hold. injection Hold as <-. right. eauto.
      * rewrite lookup_insert_ne in Hold by exact Hne. now left.
Qed.

(** X11. Over the whole scan loop the store only grows. No entry is removed,
    every new value has the form "time|size", every task sent has an entry
    under the absolute path of its key when the loop ends, and there are at
    most as many tasks as lines. *)
Theorem X11_store_only_grows (lines : list string) (f d : gmap string string) :
  let st' := controller E downConfig domainOfBucket ioProxyAddress lines
               (initState f d) in
  (length (sent st') <= length lines)%nat /\
  (forall key, is_Some (d !! key) -> is_Some (db st' !! key)) /\
  (forall t, In t (sent st') ->
     exists fileMtime fileSize,
       db st' !! localAbsFilePath E downConfig (t_fileKey t)
         = Some (rVal fileMtime fileSize)) /\
  (forall key v, db st' !! key = Some v ->
     d !! key = Some v \/ exists fileMtime fileSize, v = rVal fileMtime fileSize).
Proof.
  intros st'. subst st'. unfold controller.
  destruct (loop_store_grows lines
              (set_cnt (set_total (GetFileLineCount lines) zeroCounters)
                 (initState f d)))
    as (new & Hs & Hl & Hg & He & Hv).
  simpl in Hs. rewrite Hs. auto.
Qed.
End ControllerMore.

(** ** The suffix filter and the resume entries *)


(** X13. The resume entry round trip. The value written for a record,
    "time|size", is split and parsed back to the time it was written from,
    for every [int64] time and every size. *)
Theorem X13_resume_entry_round_trip (fileMtime fileSize : Z) :
  strconv.minInt64 <= fileMtime <= strconv.maxInt64 ->
  List.nth 0 (strings.Split (rVal fileMtime fileSize) "|"%char) ""
    = strconv.FormatInt fileMtime /\
  strconv.ParseInt (strconv.FormatInt fileMtime) = (fileMtime, None) /\
  oldFileLmd (rVal fileMtime fileSize) = fileMtime.
Proof.
  intros H. split; [| split].
  - unfold rVal.
    change ("|" ++ strconv.FormatInt fileSize)%string
      with (String "|" (strconv.FormatInt fileSize)).
    apply Split_first_FormatInt.
  - now apply ParseInt_FormatInt.
  - now apply oldFileLmd_rVal.
Qed.

Section EntryMore.
Variable E : Env.
Variable downConfig : DownloadConfig.
Variables domainOfBucket ioProxyAddress : string.

(** X14. With an absolute destination directory, the entry written when a
    task is sent is the one classification finds the next time: it is stored
    under the key that is read, and it reads back as the listed time. *)
Theorem X14_written_entry_is_found
    (text fileKey : string) (fileSize fileMtime : Z) (st : State) :
  filepath.IsAbs (DestDir downConfig) = true ->
  objectOf text = Some (fileKey, fileSize, fileMtime) ->
  let st' := process_line E downConfig domainOfBucket ioProxyAddress text st in
  sent st' <> sent st ->
  db st' !! localFilePath downConfig fileKey = Some (rVal fileMtime fileSize) /\
  recorded (db st') (localFilePath downConfig fileKey) fileMtime.
Proof.
  intros Habs Hobj st' Hsent. subst st'.
  destruct (process_line_outcomes E downConfig domainOfBucket ioProxyAddress text st)
    as (_ & [(H1 & _) | [(H1 & _) | [(H1 & _) | (k & s & m & b & fb & evs & H)]]]);
    try contradiction.
  simpl in H. destruct H as (Ho & _ & _ & _ & Hdb & _).
  rewrite Hobj in Ho. injection Ho as <- <- <-.
  rewrite Hdb, (abs_key_of_absolute_dest E downConfig fileKey Habs).
  assert (Hl : <[localFilePath downConfig fileKey := rVal fileMtime fileSize]>
                 (db st) !! localFilePath downConfig fileKey
               = Some (rVal fileMtime fileSize)) by apply lookup_insert_eq.
  split; [exact Hl |].
  right. exists (rVal fileMtime fileSize). split; [exact Hl |].
  apply oldFileLmd_rVal. eapply objectOf_int64; eassumption.
Qed.

(** X15. With a relative destination directory, the entry written when a
    task is sent is not under the key classification reads: what is stored under
    that key is what was stored before. *)
Theorem X15_written_entry_is_missed (text : string) (st : State) :
  DestDir downConfig <> "" ->
  filepath.IsAbs (DestDir downConfig) = false ->
  (forall wd, getwd E = Some wd -> filepath.IsAbs wd = true) ->
  let st' := process_line E downConfig domainOfBucket ioProxyAddress text st in
  forall fileKey,
    db st' !! localFilePath downConfig fileKey
      = db st !! localFilePath downConfig fileKey.
Proof.
  intros Hne Hrel Hwd st' fileKey. subst st'.
  destruct (process_line_outcomes E downConfig domainOfBucket ioProxyAddress text st)
    as (_ & [(_ & H2 & _) | [(_ & H2 & _) | [(_ & H2 & _)
            | (k & s & m & b & fb & evs & H)]]]);
    try (rewrite H2; reflexivity).
  simpl in H. destruct H as (_ & _ & _ & _ & Hdb & _).
  rewrite Hdb. apply lookup_insert_ne.
  intros Heq.
  assert (Ha : filepath.IsAbs (localAbsFilePath E downConfig k)
               = filepath.IsAbs (localFilePath downConfig fileKey))
    by (now rewrite Heq).
  rewrite (IsAbs_localFilePath downConfig fileKey Hne), Hrel in Ha.
  destruct (abs_key_of_relative_dest E downConfig k Hne Hrel Hwd) as [Hk | Hk];
    [rewrite Hk in Ha; discriminate |].
  rewrite Hk in Heq. symmetry in Heq. revert Heq.
  apply localFilePath_not_empty. exact Hne.
Qed.
End EntryMore.

(** ** Whole jobs *)

Lemma add64_small (a : Z) :
  0 <= a < 2 ^ 63 - 1 -> add64 a 1 = a + 1.
Proof.
  unfold add64, wrap64. intros H.
  rewrite Z.mod_small by lia. lia.
Qed.

Section Job.
Variable E : Env.
Variable downConfig : DownloadConfig.
Variables domainOfBucket ioProxyAddress : string.

Local Abbreviation job_run' :=
  (job_run E downConfig domainOfBucket ioProxyAddress).
Local Abbreviation process_line' :=
  (process_line E downConfig domainOfBucket ioProxyAddress).

Lemma job_run_accounted (lines : list string) (pending : list Task)
    (st st' : State) :
  job_run' lines pending st st' ->
  forall n,
    Z.of_nat (n + length lines) <= strconv.maxInt64 ->
    accounted n pending st ->
    accounted (n + length lines) [] st' /\
    totalFileCount (cnt st') = totalFileCount (cnt st).
Proof.
  induction 1 as [st | text rest pending st st' Hrun IH
                 | lines before task after st st' Hrun IH];
    intros n Hmax Hacc.
  - simpl. rewrite Nat.add_0_r. split; [exact Hacc | reflexivity].
  - simpl length in *.
    replace (n + S (length rest))%nat with (S n + length rest)%nat in * by lia.
    destruct Hacc as (Hc & He & Hs & Hu & Hf & Hsum & Hle).
    destruct (process_line_outcomes E downConfig domainOfBucket ioProxyAddress text st)
      as ((Ht & Hcur & Hup & Hsu & Hfa) & Hcases).
    rewrite add64_small in Hcur by (unfold strconv.maxInt64 in *; lia).
    destruct (IH (S n) Hmax) as [Hacc' Htot']; [| split; [exact Hacc' | congruence]].
    unfold accounted. rewrite Hcur, Hup, Hsu, Hfa, Hc.
    destruct Hcases as [(H1 & _ & H3 & H4) | [(H1 & _ & _ & H3 & H4 & _)
      | [(H1 & _ & _ & H3 & H4 & _) | (k & s & m & b & fb & evs & H)]]].
    + rewrite H1, H3, H4, skipn_all, app_nil_r. repeat split; lia.
    + rewrite add64_small in H3 by (unfold strconv.maxInt64 in *; lia).
      rewrite H1, H3, H4, skipn_all, app_nil_r. repeat split; lia.
    + rewrite add64_small in H4 by (unfold strconv.maxInt64 in *; lia).
      rewrite H1, H3, H4, skipn_all, app_nil_r. repeat split; lia.
    + simpl in H. destruct H as (_ & _ & H1 & _ & _ & H3 & H4 & _).
      rewrite H1, H3, H4, skipn_app, skipn_all, Nat.sub_diag. simpl.
      rewrite !length_app. simpl. repeat split; lia.
  - destruct (run_task_outcomes E downConfig domainOfBucket task st)
      as (_ & Hsent & Hex & Hsk & Hcases).
    assert (Hcur : currentFileCount
                     (cnt (run_task E downConfig domainOfBucket task st))
                   = currentFileCount (cnt st) /\
                   totalFileCount
                     (cnt (run_task E downConfig domainOfBucket task st))
                   = totalFileCount (cnt st)).
    { destruct (run_task_worker_effect E downConfig domainOfBucket task st)
        as (_ & _ & H1 & H2 & _). split; assumption. }
    destruct Hcur as [Hcur Htot].
    destruct Hacc as (Hc & He & Hs & Hu & Hf & Hsum & Hle).
    rewrite length_app in Hsum. simpl in Hsum.
    destruct (IH n Hmax) as [Hacc' Htot']; [| split; [exact Hacc' | congruence]].
    unfold accounted. rewrite Hcur, Hsent, Hex, Hsk, length_app.
    assert (Hn : Z.of_nat n <= strconv.maxInt64) by lia.
    unfold strconv.maxInt64 in *.
    destruct Hcases as [(H1 & H2 & H3 & _) | (H1 & H2 & H3 & _)];
      rewrite H1, H2, H3.
    + destruct (t_downNewLog task); rewrite !add64_small by lia;
        repeat split; lia.
    + rewrite add64_small by lia. repeat split; lia.
Qed.

(** The eager schedule is one of the schedules. *)
Lemma job_run_eagerly (lines : list string) (st : State) :
  job_run' lines [] st
    (fold_left (step_eagerly E downConfig domainOfBucket ioProxyAddress) lines st).
Proof.
  revert st. induction lines as [|text lines IH]; intros st; simpl.
  - constructor.
  - apply jr_scan. simpl. unfold step_eagerly.
    destruct (process_line_outcomes E downConfig domainOfBucket ioProxyAddress text st)
      as (_ & [(H1 & _) | [(H1 & _) | [(H1 & _) | (k & s & m & b & fb & evs & H)]]]);
      try (rewrite H1, skipn_all; apply IH).
    simpl in H. destruct H as (_ & _ & H1 & _).
    rewrite H1, skipn_app, skipn_all, Nat.sub_diag. simpl.
    apply (jr_work E downConfig domainOfBucket ioProxyAddress lines [] _ []).
    simpl. apply IH.
Qed.

(** The workers never touch what the loop reads from the store: a job is a
    run of the loop among workers, with work before and after it. *)
Lemma worker_effect_trans (a b c : State) :
  worker_effect a b -> worker_effect b c -> worker_effect a c.
Proof.
  unfold worker_effect. intros (H1 & H2 & H3 & H4 & H5 & H6)
    (G1 & G2 & G3 & G4 & G5 & G6).
  repeat split; congruence.
Qed.

Lemma job_run_loop (lines : list string) (pending : list Task) (st st' : State) :
  job_run' lines pending st st' ->
  exists st0 st1,
    worker_effect st st0 /\
    loop_among_workers E downConfig domainOfBucket ioProxyAddress lines st0 st1 /\
    worker_effect st1 st'.
Proof.
  induction 1 as [st | text rest pending st st' Hrun IH
                 | lines before task after st st' Hrun IH].
  - exists st, st. split; [apply worker_effect_refl |].
    split; [constructor | apply worker_effect_refl].
  - destruct IH as (s0 & s1 & H0 & Hloop & H1).
    exists st, s1. split; [apply worker_effect_refl |].
    split; [econstructor; eassumption | exact H1].
  - destruct IH as (s0 & s1 & H0 & Hloop & H1).
    exists s0, s1. split; [| split; assumption].
    eapply worker_effect_trans; [apply run_task_worker_effect | exact H0].
Qed.

(** X16. The counters of a job add up, whatever the order in which the
    workers run the tasks. For a listing of at most 2^63 - 1 lines, when the job is
    over every task sent is counted exactly once, as a success or as a
    failure; updates are among the successes; the records counted as
    existing, those skipped by suffix and the tasks sent are together at
    most the lines; the position is the number of lines; and the job exits
    with an error exactly when not every task sent succeeded. A task is
    taken as one step of the run. *)
Theorem X16_job_accounting (lines : list string) (f d : gmap string string)
    (st' : State) :
  Z.of_nat (length lines) <= strconv.maxInt64 ->
  job_run' lines [] (startState lines f d) st' ->
  successFileCount (cnt st') + failureFileCount (cnt st')
    = Z.of_nat (length (sent st')) /\
  0 <= updateFileCount (cnt st') <= successFileCount (cnt st') /\
  0 <= failureFileCount (cnt st') /\
  0 <= existsFileCount (cnt st') /\ 0 <= skipBySuffixes (cnt st') /\
  existsFileCount (cnt st') + skipBySuffixes (cnt st')
    + Z.of_nat (length (sent st')) <= Z.of_nat (length lines) /\
  currentFileCount (cnt st') = Z.of_nat (length lines) /\
  (exitsWithError st' = true <->
   successFileCount (cnt st') < Z.of_nat (length (sent st'))).
Proof.
  intros Hmax Hrun.
  destruct (job_run_accounted lines [] _ st' Hrun 0%nat) as [Hacc Htot].
  - simpl. exact Hmax.
  - unfold accounted, startState. simpl. lia.
  - simpl in Hacc. destruct Hacc as (Hc & He & Hs & Hu & Hf & Hsum & Hle).
    simpl in Hsum. unfold exitsWithError. rewrite Z.ltb_lt.
    repeat split; lia.
Qed.

(** X17. Two jobs in a row, for an absolute destination directory. When a
    job is over, under any schedule of the workers and whatever the store
    held before, with the final file of every classified record at its
    listed size, a second job on the same listing sends no task: it counts
    every classified record as existing and writes neither files nor store.
    ([no_clash]: a path listed twice is listed with one time.) *)
Theorem X17_rerun_after_complete_job (lines : list string)
    (f d : gmap string string) (st1 : State) :
  filepath.IsAbs (DestDir downConfig) = true ->
  no_clash E downConfig lines ->
  job_run' lines [] (startState lines f d) st1 ->
  (forall text k s m,
     In text lines ->
     objectOf text = Some (k, s, m) -> filtered downConfig k = false ->
     exists c, fs st1 !! localFilePath downConfig k = Some c /\ len c = s) ->
  let st2 := controller E downConfig domainOfBucket ioProxyAddress lines
               (initState (fs st1) (db st1)) in
  sent st2 = [] /\ fs st2 = fs st1 /\ db st2 = db st1 /\
  existsFileCount (cnt st2) =
    wrap64 (Z.of_nat (length (List.filter (classified downConfig) lines))).
Proof.
  intros Habs Hclash Hrun Hfiles.
  destruct (job_run_loop _ _ _ _ Hrun) as (s0 & s1 & H0 & Hloop & H1).
  assert (Hset : settled downConfig lines (fs st1) (db st1)).
  { intros text k s m Hin Hobj Hf. split; [eapply Hfiles; eassumption |].
    destruct H1 as (-> & _).
    eapply (run_records_listing E downConfig domainOfBucket ioProxyAddress
              lines s0 s1 Hloop Hclash); [| eassumption ..].
    intros t k' s' m' _ _ _ Hne. exfalso. apply Hne. symmetry.
    now apply abs_key_of_absolute_dest. }
  unfold controller.
  pose proof (loop_settled E downConfig domainOfBucket ioProxyAddress lines
                (set_cnt (set_total (GetFileLineCount lines) zeroCounters)
                   (initState (fs st1) (db st1))) 0 Hset eq_refl)
    as (G1 & G2 & G3 & _ & G5 & _).
  simpl in *. auto.
Qed.



End Job.

(** ** The download link and promoted temporary files *)

Lemma Replace_from_skip (a rest old new : string) :
  strings.Replace_from (String.length a) (a ++ rest) old new
  = strings.Replace_from 0 rest old new.
Proof.
  induction a as [|c a IH].
  - rewrite append_nil_l. reflexivity.
  - rewrite append_cons. simpl. exact IH.
Qed.

Lemma Replace_prefix (old rest new : string) :
  old <> "" ->
  strings.Replace (old ++ rest) old new
  = (new ++ strings.Replace rest old new)%string.
Proof.
  destruct old as [|c old]; [congruence |]. intros _.
  unfold strings.Replace. rewrite append_cons.
  cbn [strings.Replace_from].
  rewrite <- append_cons, HasPrefix_append.
  replace (String.length (String c old) - 1)%nat with (String.length old)
    by (simpl; lia).
  now rewrite Replace_from_skip.
Qed.

(** X19. The download link. When the signed URL keeps the public URL's
    scheme and host in front, the link is the signed URL with that front replaced
    by the address to fetch from, as it is given (and so is every later
    occurrence of that front in the rest of the signed URL). *)
Theorem X19_link_host_replaced (E : Env)
    (domainOfBucket ioProxyAddress fileKey rest : string) :
  PrivateUrl E ("http://" ++ domainOfBucket ++ "/" ++ fileKey)
    (Now_Unix E fileKey + 3600 * 24 * 30)
    = ("http://" ++ domainOfBucket ++ rest)%string ->
  makePrivateDownloadLink E domainOfBucket ioProxyAddress fileKey
    = (ioProxyAddress ++
       strings.Replace rest ("http://" ++ domainOfBucket) ioProxyAddress)%string.
Proof.
  intros H. unfold makePrivateDownloadLink.
  rewrite H.
  change ("http://" ++ domainOfBucket ++ rest)%string
    with (("http://" ++ domainOfBucket) ++ rest)%string.
  apply Replace_prefix. discriminate.
Qed.

Section PromoteMore.
Variable E : Env.
Variable downConfig : DownloadConfig.
Variables domainOfBucket ioProxyAddress : string.

Local Abbreviation process_line' :=
  (process_line E downConfig domainOfBucket ioProxyAddress).



End PromoteMore.

(** ** Instances of the further properties on the sample data *)

Lemma X1_absolute_dest_same_key_witness :
  localAbsFilePath (sampleEnv (fun _ => None)) (sampleConfig "/data" "") "a/b.png"
  = localFilePath (sampleConfig "/data" "") "a/b.png".
Proof.
  apply X1_absolute_dest_same_key. reflexivity.
Defined.

Lemma X2_relative_dest_other_key_witness :
  localAbsFilePath (sampleEnv (fun _ => None)) (sampleConfig "backup" "") "a.png"
  <> localFilePath (sampleConfig "backup" "") "a.png".
Proof.
  apply X2_relative_dest_other_key.
  - discriminate.
  - reflexivity.
  - intros wd H. injection H as <-. reflexivity.
Defined.

(** A download into [/data] leaves a neighbour of the object alone. *)
Lemma X3_transfer_touches_two_paths_witness :
  let E := sampleEnv (serveRange 100 0) in
  let f : gmap string string := {[ "/data/b.png" := blob 7 ]} in
  let r := downloadFile E "/data" "a.png" "io/a.png" "dom" "" 100 0 f in
  fst (fst r) !! "/data/b.png" = f !! "/data/b.png".
Proof.
  intros E f r.
  apply (X3_transfer_touches_two_paths E "/data" "a.png" "io/a.png" "dom" "" 100 0
           f (fst (fst r)) (snd (fst r)) (snd r)).
  - vm_compute. reflexivity.
  - vm_compute. discriminate.
  - vm_compute. discriminate.
Defined.

(** A download over an older final file and a stale temporary file. *)
Lemma X4_fresh_download_overwrites_witness :
  let E := sampleEnv (serveRange 100 0) in
  let f : gmap string string :=
    {[ "/data/a.png" := blob 3; "/data/a.png.tmp" := blob 40 ]} in
  let r := downloadFile E "/data" "a.png" "io/a.png" "dom" "" 100 0 f in
  exists resp,
    client_Do E (clientOf "") (mkRequest (remoteUrl "" "io/a.png") "dom" 0)
      = Some resp /\
    fst (fst r) =
      <[filepath.Join "/data" "a.png" := Body resp]>
        (delete (filepath.Join "/data" "a.png" ++ ".tmp")%string f).
Proof.
  intros E f r.
  apply (X4_fresh_download_overwrites E "/data" "a.png" "io/a.png" "dom" "" 100 0
           f (fst (fst r)) (snd r)).
  - reflexivity.
  - vm_compute. reflexivity.
Defined.

(** A resume at offset 40 with no temporary file. *)
Lemma X5_resume_without_temp_fails_witness :
  let E := sampleEnv (serveRange 100 60) in
  let r := downloadFile E "/data" "a.png" "io/a.png" "dom" "" 100 40 ∅ in
  snd (fst r) <> None /\ fst (fst r) = ∅.
Proof.
  intros E r.
  destruct (X5_resume_without_temp_fails E "/data" "a.png" "io/a.png" "dom" ""
              100 40 ∅ (fst (fst r)) (snd (fst r)) (snd r)) as (H1 & H2 & _).
  - lia.
  - vm_compute. reflexivity.
  - vm_compute. reflexivity.
  - split; assumption.
Defined.

(** A transfer through a proxy given without a scheme. *)
Lemma X6_request_shape_witness :
  let E := sampleEnv (serveRange 100 0) in
  let r := downloadFile E "/data" "a.png" "io/a.png" "dom" "proxy:8080" 100 0 ∅ in
  let req := mkRequest "http://io/a.png" "dom" 0 in
  Method req = "GET" /\ Host req = "dom".
Proof.
  intros E r req.
  destruct (X6_request_shape E "/data" "a.png" "io/a.png" "dom" "proxy:8080" 100 0
              ∅ (fst (fst r)) (snd (fst r)) (snd r)
              (Some "http://proxy:8080") req) as (H1 & H2 & _).
  - vm_compute. reflexivity.
  - vm_compute. right. left. reflexivity.
  - split; assumption.
Defined.

(** A final file of 50 bytes for an object listed with 100. *)
Lemma X8_size_mismatch_is_fresh_download_witness :
  let E := sampleEnv (fun _ => None) in
  let downConfig := sampleConfig "/data" "" in
  let st := initState {[ "/data/a.png" := blob 50 ]}
              {[ "/data/a.png" := "1000|100" ]} in
  let st' := process_line E downConfig "dom" "io"
               (record "a.png" "100" "etag" "1000") st in
  sent st' = [taskOf E downConfig "dom" "io" "a.png" 100 true 0] /\
  existsFileCount (cnt st') = 0.
Proof.
  intros E downConfig st st'.
  destruct (X8_size_mismatch_is_fresh_download E downConfig "dom" "io"
              (record "a.png" "100" "etag" "1000") "a.png" (blob 50) 100 1000 st)
    as (H1 & _ & _ & H4).
  - vm_compute. reflexivity.
  - vm_compute. reflexivity.
  - vm_compute. reflexivity.
  - vm_compute. discriminate.
  - split; assumption.
Defined.


Lemma X13_resume_entry_round_trip_witness :
  oldFileLmd (rVal 1000 100) = 1000.
Proof.
  destruct (X13_resume_entry_round_trip 1000 100) as (_ & _ & H).
  - split; vm_compute; discriminate.
  - exact H.
Defined.

(** The entry of a first download, read back under the key of the next
    classification. *)
Lemma X14_written_entry_is_found_witness :
  let E := sampleEnv (fun _ => None) in
  let downConfig := sampleConfig "/data" "" in
  let st' := process_line E downConfig "dom" "io"
               (record "a.png" "100" "etag" "1000") (initState ∅ ∅) in
  db st' !! localFilePath downConfig "a.png" = Some (rVal 1000 100).
Proof.
  intros E downConfig st'.
  destruct (X14_written_entry_is_found E downConfig "dom" "io"
              (record "a.png" "100" "etag" "1000") "a.png" 100 1000
              (initState ∅ ∅)) as (H & _).
  - reflexivity.
  - vm_compute. reflexivity.
  - vm_compute. discriminate.
  - exact H.
Defined.

(** The same first download into a relative directory. *)
Lemma X15_written_entry_is_missed_witness :
  let E := sampleEnv (fun _ => None) in
  let downConfig := sampleConfig "backup" "" in
  let st := initState ∅ ∅ in
  let st' := process_line E downConfig "dom" "io"
               (record "a.png" "100" "etag" "1000") st in
  db st' !! localFilePath downConfig "a.png"
    = db st !! localFilePath downConfig "a.png".
Proof.
  intros E downConfig st st'.
  apply (X15_written_entry_is_missed E downConfig "dom" "io"
           (record "a.png" "100" "etag" "1000") st).
  - discriminate.
  - reflexivity.
  - intros wd H. injection H as <-. reflexivity.
Defined.

(** A job of three lines: one download, one failure, one existing file. *)
Lemma X16_job_accounting_witness :
  let E := sampleEnv (fun req =>
             if String.eqb (URL req) "io/a.png?e=1402592000&token=t"
             then Some {| StatusCode := 200; Body := blob 100; CopyErr := false |}
             else None) in
  let downConfig := sampleConfig "/data" "" in
  let lines := [record "a.png" "100" "etag" "1000";
                record "b.png" "5" "etag" "7";
                record "c.png" "3" "etag" "9"] in
  let st' := run_eagerly E downConfig "dom" "io" lines
               (initState {[ "/data/c.png" := blob 3 ]} ∅) in
  successFileCount (cnt st') + failureFileCount (cnt st')
    = Z.of_nat (length (sent st')) /\
  existsFileCount (cnt st') + skipBySuffixes (cnt st')
    + Z.of_nat (length (sent st')) <= 3.
Proof.
  intros E downConfig lines st'.
  destruct (X16_job_accounting E downConfig "dom" "io" lines
              {[ "/data/c.png" := blob 3 ]} ∅ st')
    as (H1 & _ & _ & _ & _ & H6 & _).
  - vm_compute. discriminate.
  - apply job_run_eagerly.
  - split; [exact H1 | exact H6].
Defined.

(** A second job after a first one that downloaded the only object. *)
Lemma X17_rerun_after_complete_job_witness :
  let E := sampleEnv (serveRange 100 0) in
  let downConfig := sampleConfig "/data" "" in
  let lines := [record "a.png" "100" "etag" "1000"] in
  let st1 := run_eagerly E downConfig "dom" "io" lines (initState ∅ ∅) in
  let st2 := controller E downConfig "dom" "io" lines
               (initState (fs st1) (db st1)) in
  sent st2 = [] /\ fs st2 = fs st1 /\ db st2 = db st1.
Proof.
  intros E downConfig lines st1 st2.
  destruct (X17_rerun_after_complete_job E downConfig "dom" "io" lines ∅ ∅ st1)
    as (H1 & H2 & H3 & _).
  - reflexivity.
  - intros text text' k s m k' s' m' Hin Hin' Hobj _ Hobj' _ _.
    destruct Hin as [<- | []]. destruct Hin' as [<- | []]. congruence.
  - apply job_run_eagerly.
  - intros text k s m Hin Hobj _. destruct Hin as [<- | []].
    vm_compute in Hobj. injection Hobj as <- <- <-.
    exists (blob 100). split; vm_compute; reflexivity.
  - repeat split; assumption.
Defined.


(** The link for a signed URL that appends its query to the public URL. *)
Lemma X19_link_host_replaced_witness :
  makePrivateDownloadLink (sampleEnv (fun _ => None)) "dom" "io" "a/b.png"
  = ("io" ++ strings.Replace "/a/b.png?e=1402592000&token=t" ("http://" ++ "dom") "io")%string.
Proof.
  apply X19_link_host_replaced. vm_compute. reflexivity.
Defined.

